(** * gomuks: the per-room state cache of [matrix/rooms/room.go]

    A shallow embedding of the [Room] type and its methods, and the
    properties of the room state cache stated over that embedding.

    Conventions of the embedding:
    - a Go [map[string]T] is a [gmap string T]; a map-typed field or result
      that can be [nil] is an [option] of one ([None] is the nil map, on which
      [len] is 0 and every lookup misses);
    - a pointer result that can be [nil] is an [option];
    - a [for ... range] over a map visits the entries in an order the Go
      runtime picks afresh at every loop; a function that contains such a loop
      takes the visiting order as an argument, and [range_of] says that the
      order lists exactly the entries of the map;
    - a method that mutates its receiver returns the new [Room];
    - the events in the state table are the ones [UpdateState] filed there,
      so none of the table's pointers is nil;
    - a run that dereferences a nil pointer, or that the runtime aborts, is
      [Faults]. *)

From stdpp Require Import gmap strings list fin_maps pretty.

Open Scope string_scope.

(** ** Values of the event envelope *)

(** The dynamic values ([interface{}]) found in an event's content.  The code
    only ever asserts [string] and [[]interface{}]; every other dynamic type
    (nil, numbers, booleans, nested objects) is [VOther]. *)
#[warnings="-register-all"] Inductive Value : Type :=
  | VString (s : string)
  | VArray (l : list Value)
  | VOther.

(** [v, _ := x.(string)] where [x] is the result of a map lookup: the zero
    value when the key is missing or the dynamic type differs. *)
Definition assertString (x : option Value) : string :=
  match x with
  | Some (VString s) => s
  | _ => ""
  end.

(** [v, _ := x.([]interface{})]: the nil slice unless [x] holds a slice. *)
Definition assertSlice (x : option Value) : list Value :=
  match x with
  | Some (VArray l) => l
  | _ => []
  end.

(** The fields of [gomatrix.Event] that this file reads.  [StateKey] is a
    [*string]: it is nil on events that are not state events. *)
Record Event : Type := mkEvent {
  EvType : string;
  StateKey : option string;
  Content : gmap string Value
}.

(** [Member] as the room code uses it (the three fields it reads). *)
Record Member : Type := mkMember {
  UserID : string;
  Membership : string;
  DisplayName : string
}.

(** [sync.Mutex], by its documented behaviour: [Lock] waits until the mutex is
    unlocked and then locks it; [Unlock] of an unlocked mutex is a run-time
    error. *)
Record Mutex : Type := mkMutex { locked : bool }.

(** ** The room *)

Record Room : Type := mkRoom {
  (* the embedded *gomatrix.Room *)
  ID : string;
  State : gmap string (gmap string Event);
  (* fields of rooms.Room *)
  PrevBatch : string;
  SessionUserID : string;
  UnreadMessages : Z;
  Highlighted : bool;
  HasNewMessages : bool;
  memberCache : option (gmap string Member);
  firstMemberCache : string;
  nameCache : string;
  topicCache : string;
  fetchHistoryLock : option Mutex
}.

Definition set_State (v : gmap string (gmap string Event)) (r : Room) : Room :=
  mkRoom (ID r) v (PrevBatch r) (SessionUserID r) (UnreadMessages r)
         (Highlighted r) (HasNewMessages r) (memberCache r)
         (firstMemberCache r) (nameCache r) (topicCache r) (fetchHistoryLock r).

Definition set_PrevBatch (v : string) (r : Room) : Room :=
  mkRoom (ID r) (State r) v (SessionUserID r) (UnreadMessages r)
         (Highlighted r) (HasNewMessages r) (memberCache r)
         (firstMemberCache r) (nameCache r) (topicCache r) (fetchHistoryLock r).

Definition set_UnreadMessages (v : Z) (r : Room) : Room :=
  mkRoom (ID r) (State r) (PrevBatch r) (SessionUserID r) v
         (Highlighted r) (HasNewMessages r) (memberCache r)
         (firstMemberCache r) (nameCache r) (topicCache r) (fetchHistoryLock r).

Definition set_Highlighted (v : bool) (r : Room) : Room :=
  mkRoom (ID r) (State r) (PrevBatch r) (SessionUserID r) (UnreadMessages r)
         v (HasNewMessages r) (memberCache r)
         (firstMemberCache r) (nameCache r) (topicCache r) (fetchHistoryLock r).

Definition set_HasNewMessages (v : bool) (r : Room) : Room :=
  mkRoom (ID r) (State r) (PrevBatch r) (SessionUserID r) (UnreadMessages r)
         (Highlighted r) v (memberCache r)
         (firstMemberCache r) (nameCache r) (topicCache r) (fetchHistoryLock r).

Definition set_memberCache (v : option (gmap string Member)) (r : Room) : Room :=
  mkRoom (ID r) (State r) (PrevBatch r) (SessionUserID r) (UnreadMessages r)
         (Highlighted r) (HasNewMessages r) v
         (firstMemberCache r) (nameCache r) (topicCache r) (fetchHistoryLock r).

Definition set_firstMemberCache (v : string) (r : Room) : Room :=
  mkRoom (ID r) (State r) (PrevBatch r) (SessionUserID r) (UnreadMessages r)
         (Highlighted r) (HasNewMessages r) (memberCache r)
         v (nameCache r) (topicCache r) (fetchHistoryLock r).

Definition set_nameCache (v : string) (r : Room) : Room :=
  mkRoom (ID r) (State r) (PrevBatch r) (SessionUserID r) (UnreadMessages r)
         (Highlighted r) (HasNewMessages r) (memberCache r)
         (firstMemberCache r) v (topicCache r) (fetchHistoryLock r).

Definition set_topicCache (v : string) (r : Room) : Room :=
  mkRoom (ID r) (State r) (PrevBatch r) (SessionUserID r) (UnreadMessages r)
         (Highlighted r) (HasNewMessages r) (memberCache r)
         (firstMemberCache r) (nameCache r) v (fetchHistoryLock r).

Definition set_fetchHistoryLock (v : option Mutex) (r : Room) : Room :=
  mkRoom (ID r) (State r) (PrevBatch r) (SessionUserID r) (UnreadMessages r)
         (Highlighted r) (HasNewMessages r) (memberCache r)
         (firstMemberCache r) (nameCache r) (topicCache r) v.

(** ** Results of a run *)

Inductive outcome (A : Type) : Type :=
  | Returns (a : A)
  | Faults.
Arguments Returns {A} a.
Arguments Faults {A}.

Definition obind {A B : Type} (x : outcome A) (f : A → outcome B) : outcome B :=
  match x with
  | Returns a => f a
  | Faults => Faults
  end.

Notation "x ←! e1 ; e2" := (obind e1 (λ x, e2))
  (at level 100, e1 at next level, e2 at level 200, right associativity).

(** ** Go built-ins *)

(** [len(s) == 0] on a string. *)
Definition lenIsZero (s : string) : bool := Nat.eqb (String.length s) 0.

(** [len(m)] on a map that may be nil. *)
Definition mapLen {V : Type} (m : option (gmap string V)) : nat :=
  match m with
  | Some m => size m
  | None => 0
  end.

(** [m[k]] on a map that may be nil, for a pointer-valued map. *)
Definition mapGet {V : Type} (m : option (gmap string V)) (k : string) : option V :=
  match m with
  | Some m => m !! k
  | None => None
  end.

(** The entries handed to the body of [for k, v := range m], in the order of
    one particular run of the loop: any arrangement of the entries of [m]. *)
Definition range_of {V : Type} (m : option (gmap string V))
    (order : list (string * V)) : Prop :=
  order ≡ₚ map_to_list (default ∅ m).

(** [fmt.Sprintf("%s and %d others", s, n)]. *)
Definition sprintfAndOthers (s : string) (n : Z) : string :=
  s ++ " and " ++ pretty n ++ " others".

(** ** Methods that only touch the room's own fields *)

(** A held mutex makes [Lock] wait; in a run of a single caller nobody can
    release it, so the call never returns: [None].  Interleaved callers are
    in [Module HistoryLock] below. *)
Definition LockHistory (room : Room) : option Room :=
  let room :=
    match fetchHistoryLock room with
    | None => set_fetchHistoryLock (Some (mkMutex false)) room
    | Some _ => room
    end in
  match fetchHistoryLock room with
  | Some m => if locked m then None
              else Some (set_fetchHistoryLock (Some (mkMutex true)) room)
  | None => None
  end.

Definition UnlockHistory (room : Room) : outcome Room :=
  match fetchHistoryLock room with
  | Some m =>
      if locked m then Returns (set_fetchHistoryLock (Some (mkMutex false)) room)
      else Faults
  | None => Returns room
  end.

Definition MarkRead (room : Room) : Room :=
  let room := set_UnreadMessages 0 room in
  let room := set_Highlighted false room in
  let room := set_HasNewMessages false room in
  room.

(** ** The state table *)

(** The type switch of [UpdateState], with its fallthrough chain. *)
Definition invalidate (eventType : string) (room : Room) : Room :=
  if decide (eventType = "m.room.member") then
    let room := set_memberCache None room in
    let room := set_firstMemberCache "" room in
    set_nameCache "" room
  else if decide (eventType = "m.room.name") then set_nameCache "" room
  else if decide (eventType = "m.room.canonical_alias") then set_nameCache "" room
  else if decide (eventType = "m.room.alias") then set_nameCache "" room
  else if decide (eventType = "m.room.topic") then set_topicCache "" room
  else room.

Definition UpdateState (event : Event) (room : Room) : outcome Room :=
  let room :=
    match State room !! EvType event with
    | Some _ => room
    | None => set_State (<[EvType event := ∅]> (State room)) room
    end in
  let room := invalidate (EvType event) room in
  match StateKey event with
  | None => Faults
  | Some stateKey =>
      Returns (set_State
        (<[EvType event :=
             <[stateKey := event]> (default ∅ (State room !! EvType event))]>
           (State room)) room)
  end.

Definition GetStateEvents (eventType : string) (room : Room)
    : option (gmap string Event) :=
  State room !! eventType.

Definition GetStateEvent (eventType stateKey : string) (room : Room)
    : option Event :=
  let stateEventMap := State room !! eventType in
  mapGet stateEventMap stateKey.

(** ** Topic *)

Definition GetTopic (room : Room) : Room * string :=
  let room :=
    if lenIsZero (topicCache room) then
      match GetStateEvent "m.room.topic" "" room with
      | Some topicEvt =>
          set_topicCache (assertString (Content topicEvt !! "topic")) room
      | None => room
      end
    else room in
  (room, topicCache room).

(** ** Title, from the state events *)

Definition updateNameFromNameEvent (room : Room) : Room :=
  match GetStateEvent "m.room.name" "" room with
  | Some nameEvt => set_nameCache (assertString (Content nameEvt !! "name")) room
  | None => room
  end.

Definition updateNameFromCanonicalAlias (room : Room) : Room :=
  match GetStateEvent "m.room.canonical_alias" "" room with
  | Some canonicalAliasEvt =>
      set_nameCache (assertString (Content canonicalAliasEvt !! "alias")) room
  | None => room
  end.

(** The loop of [updateNameFromAliases], over the entries still to visit. *)
Fixpoint aliasesLoop (order : list (string * Event)) (room : Room) : Room :=
  match order with
  | [] => room
  | (_, event) :: rest =>
      let aliases := assertSlice (Content event !! "aliases") in
      if Nat.ltb 0 (length aliases) then
        set_nameCache (assertString (head aliases)) room
      else aliasesLoop rest room
  end.

(** [order] is the visiting order of [aliasEvents]; a nil map has no entry to
    visit. *)
Definition updateNameFromAliases (order : list (string * Event)) (room : Room)
    : Room :=
  aliasesLoop order room.

(** ** Members and the title fallback *)

Section Members.

(** [eventToRoomMember] is defined in the package's member file; the room code
    is embedded over any such conversion. *)
Variable eventToRoomMember : string → Event → Member.

(** The loop of [createMemberCache], over the entries still to visit. *)
Fixpoint memberLoop (order : list (string * Event))
    (room : Room) (cache : gmap string Member) : Room * gmap string Member :=
  match order with
  | [] => (room, cache)
  | (userID, event) :: rest =>
      let room :=
        if lenIsZero (firstMemberCache room)
           && bool_decide (userID ≠ SessionUserID room)
        then set_firstMemberCache userID room
        else room in
      let member := eventToRoomMember userID event in
      let cache :=
        if bool_decide (Membership member ≠ "leave")
        then <[UserID member := member]> cache
        else cache in
      memberLoop rest room cache
  end.

Definition createMemberCache (order : list (string * Event)) (room : Room)
    : Room * gmap string Member :=
  let cache : gmap string Member := ∅ in
  let events := GetStateEvents "m.room.member" room in
  let room := set_firstMemberCache "" room in
  let '(room, cache) :=
    match events with
    | Some _ => memberLoop order room cache
    | None => (room, cache)
    end in
  (set_memberCache (Some cache) room, cache).

Definition GetMembers (order : list (string * Event)) (room : Room)
    : Room * option (gmap string Member) :=
  let room :=
    if Nat.eqb (mapLen (memberCache room)) 0
    then fst (createMemberCache order room)
    else room in
  (room, memberCache room).

Definition GetMember (order : list (string * Event)) (userID : string)
    (room : Room) : Room * option Member :=
  let room :=
    if Nat.eqb (mapLen (memberCache room)) 0
    then fst (createMemberCache order room)
    else room in
  (room, mapGet (memberCache room) userID).

Definition GetSessionOwner (order : list (string * Event)) (room : Room)
    : Room * option Member :=
  GetMember order (SessionUserID room) room.

(** [members[room.firstMemberCache].DisplayName] dereferences the looked-up
    pointer, which is nil when the key is not in the map. *)
Definition updateNameFromMembers (order : list (string * Event)) (room : Room)
    : outcome Room :=
  let '(room, members) := GetMembers order room in
  if Nat.leb (mapLen members) 1 then
    Returns (set_nameCache "Empty room" room)
  else if Nat.eqb (mapLen members) 2 then
    match mapGet members (firstMemberCache room) with
    | Some m => Returns (set_nameCache (DisplayName m) room)
    | None => Faults
    end
  else
    match mapGet members (firstMemberCache room) with
    | Some m =>
        let firstMember := DisplayName m in
        Returns (set_nameCache
          (sprintfAndOthers firstMember (Z.of_nat (mapLen members) - 2)) room)
    | None => Faults
    end.

(** [aliasOrder] is the visiting order of the loop in [updateNameFromAliases],
    [memberOrder] that of the loop in [createMemberCache]. *)
Definition updateNameCache (aliasOrder memberOrder : list (string * Event))
    (room : Room) : outcome Room :=
  let room :=
    if lenIsZero (nameCache room) then updateNameFromNameEvent room else room in
  let room :=
    if lenIsZero (nameCache room) then updateNameFromCanonicalAlias room
    else room in
  let room :=
    if lenIsZero (nameCache room) then updateNameFromAliases aliasOrder room
    else room in
  if lenIsZero (nameCache room) then updateNameFromMembers memberOrder room
  else Returns room.

Definition GetTitle (aliasOrder memberOrder : list (string * Event))
    (room : Room) : outcome (Room * string) :=
  room ←! updateNameCache aliasOrder memberOrder room;
  Returns (room, nameCache room).

End Members.

(** [gomatrix.NewRoom(roomID)] gives the room its ID and an empty state
    table; every field the literal does not name has its zero value. *)
Definition NewRoom (roomID owner : string) : Room :=
  {| ID := roomID; State := ∅;
     PrevBatch := ""; SessionUserID := owner;
     UnreadMessages := 0; Highlighted := false; HasNewMessages := false;
     memberCache := None; firstMemberCache := "";
     nameCache := ""; topicCache := "";
     fetchHistoryLock := Some (mkMutex false) |}.

(** Modelled from the spec: [eventToRoomMember], whose defining file is not
    among the sources.  Section 3 of the specification: a Member is a value
    with [userID], [displayName] and [membership], "built from a
    [m.room.member] state event".  The user ID is the state key the event is
    filed under; the two other fields are read from the event's content. *)
Definition eventToRoomMember_model (userID : string) (event : Event) : Member :=
  {| UserID := userID;
     Membership := assertString (Content event !! "membership");
     DisplayName := assertString (Content event !! "displayname") |}.

(** ** Sample events *)

Definition memberEvent (userID membership displayname : string) : Event :=
  {| EvType := "m.room.member"; StateKey := Some userID;
     Content := {[ "membership" := VString membership;
                   "displayname" := VString displayname ]} |}.

Definition joined (userID displayname : string) : Event :=
  memberEvent userID "join" displayname.

Definition aliasesEvent (server : string) (aliases : list Value) : Event :=
  {| EvType := "m.room.aliases"; StateKey := Some server;
     Content := {[ "aliases" := VArray aliases ]} |}.

Definition nameEvent (name : string) : Event :=
  {| EvType := "m.room.name"; StateKey := Some "";
     Content := {[ "name" := VString name ]} |}.

Definition topicEvent (topic : string) : Event :=
  {| EvType := "m.room.topic"; StateKey := Some "";
     Content := {[ "topic" := VString topic ]} |}.

(** A run of [UpdateState] over a list of events, oldest first. *)
Fixpoint applyEvents (events : list Event) (room : Room) : outcome Room :=
  match events with
  | [] => Returns room
  | event :: rest => room ←! UpdateState event room; applyEvents rest room
  end.

(** ** The history guard under interleaved callers

    [LockHistory] and [UnlockHistory] as sequences of the reads and writes
    they make to shared memory, one per step, so that several callers can be
    interleaved.  The shared memory is the field [room.fetchHistoryLock] (nil
    or the address of a mutex) and the mutexes allocated so far. *)
Module HistoryLock.

Record memory : Type := mkMemory {
  guard : option nat;       (* room.fetchHistoryLock *)
  mutexes : list bool       (* by address: is the mutex locked *)
}.

(** Where a caller stands in [LockHistory(); <fetch history>; UnlockHistory()]. *)
Inductive point : Type :=
  | LockTest       (* about to evaluate [room.fetchHistoryLock == nil] *)
  | LockCreate     (* saw nil: about to store [&sync.Mutex{}] *)
  | LockAcquire    (* about to call [room.fetchHistoryLock.Lock()] *)
  | Holding        (* [LockHistory] has returned *)
  | UnlockTest     (* about to evaluate [room.fetchHistoryLock != nil] *)
  | UnlockRelease  (* about to call [room.fetchHistoryLock.Unlock()] *)
  | Finished       (* [UnlockHistory] has returned *)
  | Crashed.

#[global] Instance point_eq_dec : EqDecision point.
Proof. solve_decision. Defined.

(** One step of one caller; [None] when the caller cannot move: it waits in
    [Lock], or it has nothing left to run. *)
Definition advance (p : point) (mem : memory) : option (point * memory) :=
  match p with
  | LockTest =>
      match guard mem with
      | None => Some (LockCreate, mem)
      | Some _ => Some (LockAcquire, mem)
      end
  | LockCreate =>
      Some (LockAcquire,
            {| guard := Some (length (mutexes mem));
               mutexes := mutexes mem ++ [false] |})
  | LockAcquire =>
      match guard mem with
      | None => Some (Crashed, mem)
      | Some a =>
          match mutexes mem !! a with
          | Some false =>
              Some (Holding,
                    {| guard := guard mem; mutexes := <[a := true]> (mutexes mem) |})
          | Some true => None
          | None => Some (Crashed, mem)
          end
      end
  | Holding => Some (UnlockTest, mem)
  | UnlockTest =>
      match guard mem with
      | None => Some (Finished, mem)
      | Some _ => Some (UnlockRelease, mem)
      end
  | UnlockRelease =>
      match guard mem with
      | None => Some (Crashed, mem)
      | Some a =>
          match mutexes mem !! a with
          | Some true =>
              Some (Finished,
                    {| guard := guard mem; mutexes := <[a := false]> (mutexes mem) |})
          | _ => Some (Crashed, mem)
          end
      end
  | Finished => None
  | Crashed => None
  end.

Record world : Type := mkWorld {
  shared : memory;
  callers : list point
}.

(** Caller [i] takes its next step. *)
Definition step (i : nat) (w : world) : option world :=
  p ← callers w !! i;
  '(p', mem') ← advance p (shared w);
  Some {| shared := mem'; callers := <[i := p']> (callers w) |}.

(** A schedule names the caller that moves at each step. *)
Fixpoint run (schedule : list nat) (w : world) : option world :=
  match schedule with
  | [] => Some w
  | i :: rest => w' ← step i w; run rest w'
  end.

(** A caller is inside from the return of [LockHistory] until its
    [UnlockHistory] has released the guard. *)
Definition inside (p : point) : bool :=
  match p with
  | Holding | UnlockTest | UnlockRelease => true
  | _ => false
  end.

(** How many callers are inside. *)
Definition holders (w : world) : nat :=
  length (filter (λ p, inside p = true) (callers w)).

(** [n] callers about to call [LockHistory] on a room whose guard is [g]. *)
Definition start (g : option nat) (ms : list bool) (n : nat) : world :=
  {| shared := {| guard := g; mutexes := ms |};
     callers := replicate n LockTest |}.

End HistoryLock.

(** What holds of every world that callers reach from a room whose guard was
    created with the room: the field still names that mutex, nobody is about
    to replace it, and the mutex is locked exactly when one caller is
    inside. *)
Definition eagerInvariant (w : HistoryLock.world) : Prop :=
  HistoryLock.guard (HistoryLock.shared w) = Some 0 ∧
  Forall (λ p, p ≠ HistoryLock.LockCreate) (HistoryLock.callers w) ∧
  ∃ b, HistoryLock.mutexes (HistoryLock.shared w) = [b] ∧
       HistoryLock.holders w = if b then 1 else 0.

(** ** Vocabulary of the specification *)

(** The event a reader of the table expects under [(eventType, stateKey)]
    after [events] were applied, oldest first: the last of them filed under
    that pair, if any. *)
Definition latestEvent (eventType stateKey : string) (events : list Event)
    : option Event :=
  last (filter (λ e, EvType e = eventType ∧ StateKey e = Some stateKey) events).

(** Rule 1 of the title precedence: the [name] field of the [m.room.name]
    event. *)
Definition nameField (room : Room) : string :=
  match GetStateEvent "m.room.name" "" room with
  | Some e => assertString (Content e !! "name")
  | None => ""
  end.

(** Rule 2: the [alias] field of the [m.room.canonical_alias] event. *)
Definition canonicalAliasField (room : Room) : string :=
  match GetStateEvent "m.room.canonical_alias" "" room with
  | Some e => assertString (Content e !! "alias")
  | None => ""
  end.

(** Rule 3: the first entry of the first non-empty [aliases] array, among the
    [m.room.aliases] events in the order they are met. *)
Fixpoint firstAlias (order : list (string * Event)) : string :=
  match order with
  | [] => ""
  | (_, e) :: rest =>
      match assertSlice (Content e !! "aliases") with
      | a :: _ => assertString (Some a)
      | [] => firstAlias rest
      end
  end.

(** Rule 4: the title by member count, [other] being the first other
    member. *)
Definition memberCountTitle (total : nat) (other : Member) : string :=
  if decide (total ≤ 1)%nat then "Empty room"
  else if decide (total = 2) then DisplayName other
  else DisplayName other ++ " and " ++ pretty (Z.of_nat total - 2)%Z ++ " others".

Section Reachable.

Variable eventToRoomMember : string → Event → Member.

(** The roster the specification describes: one member per [m.room.member]
    event, those whose membership is "leave" left out. *)
Definition membersOf (events : gmap string Event) : gmap string Member :=
  map_imap (λ userID event,
    let member := eventToRoomMember userID event in
    if bool_decide (Membership member ≠ "leave") then Some member else None)
    events.

(** The rooms a client can hold: made by [NewRoom], then changed only through
    the methods and through writes to the exported notification and
    pagination fields. *)
Inductive reachable : Room → Prop :=
  | reach_NewRoom roomID owner :
      reachable (NewRoom roomID owner)
  | reach_UpdateState event room room' :
      reachable room →
      UpdateState event room = Returns room' →
      reachable room'
  | reach_GetTitle aliasOrder memberOrder room room' title :
      reachable room →
      range_of (GetStateEvents "m.room.aliases" room) aliasOrder →
      range_of (GetStateEvents "m.room.member" room) memberOrder →
      GetTitle eventToRoomMember aliasOrder memberOrder room
        = Returns (room', title) →
      reachable room'
  | reach_GetTopic room :
      reachable room → reachable (GetTopic room).1
  | reach_GetMembers order room :
      reachable room →
      range_of (GetStateEvents "m.room.member" room) order →
      reachable (GetMembers eventToRoomMember order room).1
  | reach_GetMember order userID room :
      reachable room →
      range_of (GetStateEvents "m.room.member" room) order →
      reachable (GetMember eventToRoomMember order userID room).1
  | reach_MarkRead room :
      reachable room → reachable (MarkRead room)
  | reach_LockHistory room room' :
      reachable room → LockHistory room = Some room' → reachable room'
  | reach_UnlockHistory room room' :
      reachable room → UnlockHistory room = Returns room' → reachable room'
  | reach_fields prevBatch unread highlighted hasNew room :
      reachable room →
      reachable (set_PrevBatch prevBatch (set_UnreadMessages unread
                  (set_Highlighted highlighted
                    (set_HasNewMessages hasNew room)))).

(** The member cache is unset or is the roster of the current state table. *)
Definition memberCacheCoherent (room : Room) : Prop :=
  memberCache room = None ∨
  memberCache room
    = Some (membersOf (default ∅ (GetStateEvents "m.room.member" room))).

End Reachable.

(** The title the state events alone give, by rules 1 to 3 in that order;
    empty when none of them gives one. *)
Definition stateTitle (aliasOrder : list (string * Event)) (room : Room)
    : string :=
  if decide (nameField room ≠ "") then nameField room
  else if decide (canonicalAliasField room ≠ "") then canonicalAliasField room
  else firstAlias aliasOrder.

(** The first user met, in visiting order, who is not the session user.  An
    empty user ID leaves [firstMemberCache] empty, so the next one met
    replaces it. *)
Definition firstOther (sessionUserID : string) (order : list (string * Event))
    : string :=
  default "" (head (filter (λ u, u ≠ sessionUserID ∧ u ≠ "") order.*1)).

(** The cache the loop of [createMemberCache] builds, apart from the room. *)
Definition cacheLoop (eventToRoomMember : string → Event → Member)
    (order : list (string * Event)) (cache : gmap string Member)
    : gmap string Member :=
  foldl (λ cache '(userID, event),
           let member := eventToRoomMember userID event in
           if bool_decide (Membership member ≠ "leave")
           then <[UserID member := member]> cache
           else cache)
        cache order.

(** ** Sample rooms *)

(** The state key an event is filed under, with the event: the entries of a
    table built from [events]. *)
Definition entriesOf (events : list Event) : list (string * Event) :=
  map (λ e, (default "" (StateKey e), e)) events.

(** The room of [owner] after [events] were applied to a fresh room. *)
Definition roomWith (owner : string) (events : list Event) : Room :=
  match applyEvents events (NewRoom "!room:example.org" owner) with
  | Returns room => room
  | Faults => NewRoom "!room:example.org" owner
  end.

Definition me : string := "@me:example.org".
Definition alice : string := "@alice:example.org".
Definition bob : string := "@bob:example.org".
Definition carol : string := "@carol:example.org".

(** Bob has left; nobody else ever joined. *)
Definition bobLeftEvents : list Event := [memberEvent bob "leave" "Bob"].

(** Alice has left; Bob and the session user are in the room. *)
Definition aliceLeftEvents : list Event :=
  [memberEvent alice "leave" "Alice"; memberEvent bob "join" "Bob";
   memberEvent me "join" "Me"].

(** Alice has left; Bob, Carol and the session user are in the room. *)
Definition aliceLeftOfFourEvents : list Event :=
  [memberEvent alice "leave" "Alice"; memberEvent bob "join" "Bob";
   memberEvent carol "join" "Carol"; memberEvent me "join" "Me"].

(** Bob and the session user are in the room. *)
Definition pairEvents : list Event :=
  [memberEvent bob "join" "Bob"; memberEvent me "join" "Me"].

(** A membership event filed under the empty state key, with no display
    name: the member's display name is empty whether or not the conversion
    falls back on the user ID. *)
Definition namelessJoin : Event :=
  {| EvType := "m.room.member"; StateKey := Some "";
     Content := {[ "membership" := VString "join" ]} |}.

Definition namelessEvents : list Event :=
  [namelessJoin; memberEvent me "join" "Me"].

(** Two servers publish aliases: the first entry of one is not a string, the
    other's is an alias. *)
Definition oddAliases : Event := aliasesEvent "a.example.org" [VOther].
Definition goodAliases : Event :=
  aliasesEvent "b.example.org" [VString "#room:b.example.org"].

Definition twoAliasRoom : Room :=
  roomWith me (namelessEvents ++ [oddAliases; goodAliases]).

(** A fresh room whose title was asked for: "Empty room" is cached. *)
Definition titledRoom : Room :=
  set_nameCache "Empty room"
    (set_memberCache (Some ∅) (NewRoom "!room:example.org" me)).

(** A room whose guard was never created: the field has its zero value, as
    in any [Room] that was not made by [NewRoom]. *)
Definition storedRoom : Room :=
  set_fetchHistoryLock None (NewRoom "!room:example.org" me).

(** The table after filing [event] under [stateKey]. *)
Definition fileEvent (event : Event) (stateKey : string)
    (S : gmap string (gmap string Event)) : gmap string (gmap string Event) :=
  <[EvType event := <[stateKey := event]> (default ∅ (S !! EvType event))]> S.

(** ** Coherence of the caches with the table *)

(** The topic the state table holds: the [topic] field of the [m.room.topic]
    event filed under the empty state key. *)
Definition topicField (room : Room) : string :=
  match GetStateEvent "m.room.topic" "" room with
  | Some e => assertString (Content e !! "topic")
  | None => ""
  end.

(** A cached topic is the table's topic. *)
Definition topicCacheCoherent (room : Room) : Prop :=
  topicCache room = "" ∨ topicCache room = topicField room.

(** When the table holds a room name, a cached title is that name. *)
Definition nameCacheCoherent (room : Room) : Prop :=
  nameField room ≠ "" →
  nameCache room = "" ∨ nameCache room = nameField room.

(** [firstMemberCache] is the first other member of some visit of the current
    membership events, unless the member cache was dropped. *)
Definition firstMemberCoherent (room : Room) : Prop :=
  (memberCache room = None ∧ firstMemberCache room = "") ∨
  ∃ order, range_of (GetStateEvents "m.room.member" room) order ∧
           firstMemberCache room = firstOther (SessionUserID room) order.

(** [room'] differs from [room] at most in the four caches. *)
Definition onlyCachesDiffer (room room' : Room) : Prop :=
  ID room' = ID room ∧ State room' = State room ∧
  PrevBatch room' = PrevBatch room ∧
  SessionUserID room' = SessionUserID room ∧
  UnreadMessages room' = UnreadMessages room ∧
  Highlighted room' = Highlighted room ∧
  HasNewMessages room' = HasNewMessages room ∧
  fetchHistoryLock room' = fetchHistoryLock room.

(** * Properties *)

(** ** Field bookkeeping *)

Lemma lenIsZero_true (s : string) : lenIsZero s = true ↔ s = "".
Proof.
  unfold lenIsZero. destruct s; simpl; split; first [done | intros; done].
Qed.

Lemma lenIsZero_false (s : string) : lenIsZero s = false ↔ s ≠ "".
Proof.
  rewrite <- lenIsZero_true. destruct (lenIsZero s); split; congruence.
Qed.

Lemma set_nameCache_id (room : Room) (s : string) :
  nameCache room = s → set_nameCache s room = room.
Proof. intros <-. by destruct room. Qed.

Lemma State_invalidate (eventType : string) (room : Room) :
  State (invalidate eventType room) = State room.
Proof. unfold invalidate. repeat case_decide; done. Qed.

(** ** MarkRead *)

(** C10: [MarkRead] zeroes the unread count and clears the highlighted and
    has-new-messages flags whatever they were, and leaves every other field
    of the room as it found it. *)
Theorem MarkRead_resets_and_frames (room : Room) :
  UnreadMessages (MarkRead room) = 0%Z ∧
  Highlighted (MarkRead room) = false ∧
  HasNewMessages (MarkRead room) = false ∧
  ID (MarkRead room) = ID room ∧
  State (MarkRead room) = State room ∧
  PrevBatch (MarkRead room) = PrevBatch room ∧
  SessionUserID (MarkRead room) = SessionUserID room ∧
  memberCache (MarkRead room) = memberCache room ∧
  firstMemberCache (MarkRead room) = firstMemberCache room ∧
  nameCache (MarkRead room) = nameCache room ∧
  topicCache (MarkRead room) = topicCache room ∧
  fetchHistoryLock (MarkRead room) = fetchHistoryLock room.
Proof. repeat split. Qed.

(** ** The state table *)

Lemma UpdateState_State (event : Event) (stateKey : string) (room : Room) :
  StateKey event = Some stateKey →
  ∃ room', UpdateState event room = Returns room' ∧
    State room' = <[EvType event :=
                     <[stateKey := event]>
                       (default ∅ (State room !! EvType event))]> (State room).
Proof.
  intros Hk. unfold UpdateState. rewrite Hk.
  eexists; split; [reflexivity |]. cbn [State set_State].
  rewrite !State_invalidate.
  destruct (State room !! EvType event) eqn:Hty; cbn [State set_State].
  - rewrite Hty. done.
  - rewrite lookup_insert_eq. cbn. by rewrite insert_insert_eq.
Qed.

Lemma GetStateEvent_UpdateState (event : Event) (key : string) (room room' : Room)
    (eventType stateKey : string) :
  StateKey event = Some key →
  UpdateState event room = Returns room' →
  GetStateEvent eventType stateKey room' =
    if decide (EvType event = eventType ∧ StateKey event = Some stateKey)
    then Some event else GetStateEvent eventType stateKey room.
Proof.
  intros Hk Hrun.
  destruct (UpdateState_State event key room Hk) as (r & Hr & HS).
  rewrite Hrun in Hr. injection Hr as <-.
  unfold GetStateEvent. rewrite HS.
  destruct (decide (EvType event = eventType)) as [<- | Hne].
  - rewrite lookup_insert_eq. cbn [mapGet].
    destruct (decide (key = stateKey)) as [<- | Hnk].
    + rewrite lookup_insert_eq. rewrite decide_True; done.
    + rewrite lookup_insert_ne by done.
      rewrite decide_False by (rewrite Hk; intros [_ ?]; congruence).
      by destruct (State room !! EvType event).
  - rewrite lookup_insert_ne by done.
    rewrite decide_False by (intros [? _]; done). done.
Qed.

(** C7: after any run of [UpdateState] over state events, the table holds
    under each (type, state key) pair exactly the event applied last for that
    pair (and what it held before for a pair no event touched): a later event
    replaces the earlier one, and [GetStateEvent] returns it. *)
Theorem GetStateEvent_latest (events : list Event) (room : Room) :
  Forall (λ e, is_Some (StateKey e)) events →
  ∃ room', applyEvents events room = Returns room' ∧
    ∀ eventType stateKey,
      GetStateEvent eventType stateKey room' =
        match latestEvent eventType stateKey events with
        | Some e => Some e
        | None => GetStateEvent eventType stateKey room
        end.
Proof.
  intros Hall. revert room.
  induction Hall as [| e rest [k Hk] _ IH]; intros room.
  - exists room. split; [done |]. intros. done.
  - destruct (UpdateState_State e k room Hk) as (r1 & Hr1 & _).
    destruct (IH r1) as (r2 & Hr2 & Hget).
    exists r2. split.
    + cbn [applyEvents]. rewrite Hr1. exact Hr2.
    + intros ty sk. rewrite Hget.
      rewrite (GetStateEvent_UpdateState e k room r1 ty sk Hk Hr1).
      unfold latestEvent. rewrite filter_cons.
      destruct (decide (EvType e = ty ∧ StateKey e = Some sk)) as [Hm | Hm].
      * rewrite last_cons. by destruct (last _).
      * done.
Qed.

Lemma GetStateEvent_latest_witness :
  ∃ room',
    applyEvents [topicEvent "old"; nameEvent "n"; topicEvent "new"]
      (NewRoom "!room:example.org" "@me:example.org") = Returns room' ∧
    GetStateEvent "m.room.topic" "" room' = Some (topicEvent "new").
Proof.
  destruct (GetStateEvent_latest
              [topicEvent "old"; nameEvent "n"; topicEvent "new"]
              (NewRoom "!room:example.org" "@me:example.org"))
    as (room' & Hrun & Hget).
  - repeat constructor; by eexists.
  - exists room'. split; [exact Hrun |]. rewrite Hget. reflexivity.
Defined.

(** ** Releasing the history guard *)

(** C6, refuted as stated: on a fresh room the guard exists and is free, and
    [UnlockHistory] is not a no-op there: the run is aborted. *)
Lemma UnlockHistory_free_guard_faults :
  fetchHistoryLock (NewRoom "!room:example.org" "@me:example.org")
    = Some (mkMutex false) ∧
  UnlockHistory (NewRoom "!room:example.org" "@me:example.org") = Faults.
Proof. split; reflexivity. Qed.

(** C6, amended: [UnlockHistory] is a silent no-op exactly when the guard was
    never created: it returns and the room is unchanged.  On a guard that
    exists and is free it does not return normally. *)
Theorem UnlockHistory_not_held (room : Room) :
  (fetchHistoryLock room = None → UnlockHistory room = Returns room) ∧
  (∀ m, fetchHistoryLock room = Some m → locked m = false →
        UnlockHistory room = Faults).
Proof.
  unfold UnlockHistory. split.
  - intros ->. done.
  - intros m -> ->. done.
Qed.

Lemma UnlockHistory_not_held_witness :
  fetchHistoryLock storedRoom = None ∧
  UnlockHistory storedRoom = Returns storedRoom.
Proof.
  split; [reflexivity |].
  apply (proj1 (UnlockHistory_not_held storedRoom)). reflexivity.
Defined.

(** ** Visiting orders *)

Lemma range_of_nil {V : Type} (order : list (string * V)) :
  range_of None order → order = [].
Proof.
  unfold range_of. cbn. rewrite map_to_list_empty. apply Permutation_nil_r.
Qed.

Lemma range_of_NoDup {V : Type} (m : option (gmap string V))
    (order : list (string * V)) :
  range_of m order → NoDup order.*1.
Proof.
  unfold range_of. intros ->. apply NoDup_fst_map_to_list.
Qed.

Lemma range_of_to_map {V : Type} (m : option (gmap string V))
    (order : list (string * V)) :
  range_of m order → list_to_map order = default ∅ m.
Proof.
  intros Hr. rewrite <- (list_to_map_to_list (default ∅ m)).
  apply list_to_map_proper; [by eapply range_of_NoDup | exact Hr].
Qed.

(** Any duplicate-free listing of a table's entries is a visiting order. *)
Lemma range_of_intro {V : Type} (m : option (gmap string V))
    (order : list (string * V)) :
  NoDup order.*1 → default ∅ m = list_to_map order → range_of m order.
Proof.
  unfold range_of. intros Hnd ->. symmetry. by apply map_to_list_to_map.
Qed.

Ltac solve_range_of :=
  apply range_of_intro;
  [ apply (bool_decide_unpack _); vm_compute; reflexivity
  | vm_compute; reflexivity ].

(** ** The member cache *)

Section MemberCache.

Variable eventToRoomMember : string → Event → Member.

Lemma memberLoop_eq (order : list (string * Event)) :
  ∀ (room : Room) (cache : gmap string Member),
    memberLoop eventToRoomMember order room cache =
      (set_firstMemberCache
         (if lenIsZero (firstMemberCache room)
          then firstOther (SessionUserID room) order
          else firstMemberCache room) room,
       cacheLoop eventToRoomMember order cache).
Proof.
  induction order as [| [userID event] rest IH]; intros room cache.
  - cbn. destruct (lenIsZero (firstMemberCache room)) eqn:Hz.
    + apply lenIsZero_true in Hz. destruct room; cbn in *; by subst.
    + by destruct room.
  - cbn [memberLoop]. rewrite IH. cbn [cacheLoop foldl]. f_equal.
    unfold firstOther. cbn [fmap list_fmap fst]. rewrite filter_cons.
    destruct (lenIsZero (firstMemberCache room)) eqn:Hz; cbn [andb].
    + case_bool_decide as Hs; cbn [SessionUserID set_firstMemberCache
                                   firstMemberCache].
      * destruct (lenIsZero userID) eqn:Hu.
        -- apply lenIsZero_true in Hu. subst userID.
           rewrite decide_False by (intros [_ ?]; done).
           by destruct room.
        -- apply lenIsZero_false in Hu.
           rewrite decide_True by done. by destruct room.
      * rewrite Hz. rewrite decide_False by (intros [? _]; done). done.
    + rewrite Hz. done.
Qed.

Lemma createMemberCache_eq (order : list (string * Event)) (room : Room) :
  range_of (GetStateEvents "m.room.member" room) order →
  createMemberCache eventToRoomMember order room =
    (set_memberCache (Some (cacheLoop eventToRoomMember order ∅))
       (set_firstMemberCache (firstOther (SessionUserID room) order) room),
     cacheLoop eventToRoomMember order ∅).
Proof.
  intros Hr. unfold createMemberCache.
  destruct (GetStateEvents "m.room.member" room) eqn:Hev.
  - rewrite memberLoop_eq. by destruct room.
  - apply range_of_nil in Hr. subst order. by destruct room.
Qed.

Hypothesis eventToRoomMember_UserID :
  ∀ userID event, UserID (eventToRoomMember userID event) = userID.

Lemma cacheLoop_lookup (order : list (string * Event)) :
  NoDup order.*1 →
  ∀ (cache : gmap string Member) (userID : string),
    cacheLoop eventToRoomMember order cache !! userID =
      match (list_to_map order : gmap string Event) !! userID with
      | Some event =>
          if bool_decide (Membership (eventToRoomMember userID event) ≠ "leave")
          then Some (eventToRoomMember userID event)
          else cache !! userID
      | None => cache !! userID
      end.
Proof.
  induction order as [| [k e] rest IH]; intros Hnd cache userID.
  - cbn. by rewrite lookup_empty.
  - cbn in Hnd. apply NoDup_cons in Hnd as [Hk Hnd].
    change (cacheLoop eventToRoomMember ((k, e) :: rest) cache) with
      (cacheLoop eventToRoomMember rest
         (if bool_decide (Membership (eventToRoomMember k e) ≠ "leave")
          then <[UserID (eventToRoomMember k e) := eventToRoomMember k e]> cache
          else cache)).
    rewrite (IH Hnd). cbn [list_to_map foldr]. cbn.
    rewrite eventToRoomMember_UserID.
    destruct (decide (k = userID)) as [<- | Hne].
    + rewrite lookup_insert_eq.
      rewrite (not_elem_of_list_to_map_1 _ _ Hk).
      case_bool_decide; [by rewrite lookup_insert_eq | done].
    + rewrite lookup_insert_ne by done.
      destruct (list_to_map rest !! userID) as [e' |] eqn:He'.
      * case_bool_decide; [done |].
        case_bool_decide; [by rewrite lookup_insert_ne | done].
      * case_bool_decide; [by rewrite lookup_insert_ne | done].
Qed.

(** Whatever the visiting order, the loop builds the roster. *)
Lemma cacheLoop_membersOf (events : option (gmap string Event))
    (order : list (string * Event)) :
  range_of events order →
  cacheLoop eventToRoomMember order ∅
    = membersOf eventToRoomMember (default ∅ events).
Proof.
  intros Hr. apply map_eq. intros userID.
  rewrite (cacheLoop_lookup order (range_of_NoDup _ _ Hr)).
  rewrite (range_of_to_map _ _ Hr). unfold membersOf.
  rewrite lookup_empty, map_lookup_imap.
  destruct (default ∅ events !! userID); cbn; [| done].
  by case_bool_decide.
Qed.

End MemberCache.

(** ** Title resolution *)

Lemma aliasesLoop_eq (order : list (string * Event)) (room : Room) :
  nameCache room = "" →
  aliasesLoop order room = set_nameCache (firstAlias order) room.
Proof.
  intros Hn. induction order as [| [k e] rest IH]; cbn.
  - symmetry. by apply set_nameCache_id.
  - destruct (assertSlice (Content e !! "aliases")) as [| a l]; cbn; done.
Qed.

Lemma updateNameFromNameEvent_eq (room : Room) :
  nameCache room = "" →
  updateNameFromNameEvent room = set_nameCache (nameField room) room.
Proof.
  intros Hn. unfold updateNameFromNameEvent, nameField.
  destruct (GetStateEvent "m.room.name" "" room); [done |].
  symmetry. by apply set_nameCache_id.
Qed.

Lemma updateNameFromCanonicalAlias_eq (room : Room) :
  nameCache room = "" →
  updateNameFromCanonicalAlias room
    = set_nameCache (canonicalAliasField room) room.
Proof.
  intros Hn. unfold updateNameFromCanonicalAlias, canonicalAliasField.
  destruct (GetStateEvent "m.room.canonical_alias" "" room); [done |].
  symmetry. by apply set_nameCache_id.
Qed.

Section Title.

Variable eventToRoomMember : string → Event → Member.

(** A title already cached is returned as it is. *)
Lemma updateNameCache_set (aliasOrder memberOrder : list (string * Event))
    (room : Room) :
  nameCache room ≠ "" →
  updateNameCache eventToRoomMember aliasOrder memberOrder room = Returns room.
Proof.
  intros Hn. apply lenIsZero_false in Hn. unfold updateNameCache.
  by rewrite !Hn.
Qed.

(** With no title cached, rules 1 to 3 are tried in order and the member
    fallback runs only when they all come out empty. *)
Lemma updateNameCache_unset (aliasOrder memberOrder : list (string * Event))
    (room : Room) :
  nameCache room = "" →
  updateNameCache eventToRoomMember aliasOrder memberOrder room =
    if decide (stateTitle aliasOrder room = "")
    then updateNameFromMembers eventToRoomMember memberOrder room
    else Returns (set_nameCache (stateTitle aliasOrder room) room).
Proof.
  intros Hn. unfold updateNameCache, stateTitle, updateNameFromAliases.
  rewrite Hn. cbn [lenIsZero String.length Nat.eqb].
  rewrite (updateNameFromNameEvent_eq room Hn).
  destruct (decide (nameField room ≠ "")) as [H1 | H1].
  { rewrite decide_False by done. apply lenIsZero_false in H1.
    repeat (cbn [nameCache set_nameCache]; rewrite H1). done. }
  apply dec_stable in H1. rewrite H1, (set_nameCache_id room "" Hn), Hn.
  cbn [lenIsZero String.length Nat.eqb].
  rewrite (updateNameFromCanonicalAlias_eq room Hn).
  destruct (decide (canonicalAliasField room ≠ "")) as [H2 | H2].
  { rewrite decide_False by done. apply lenIsZero_false in H2.
    repeat (cbn [nameCache set_nameCache]; rewrite H2). done. }
  apply dec_stable in H2. rewrite H2, (set_nameCache_id room "" Hn), Hn.
  cbn [lenIsZero String.length Nat.eqb].
  rewrite (aliasesLoop_eq aliasOrder room Hn).
  cbn [nameCache set_nameCache].
  destruct (decide (firstAlias aliasOrder = "")) as [H3 | H3].
  - rewrite H3. rewrite (set_nameCache_id room "" Hn). done.
  - apply lenIsZero_false in H3. by rewrite H3.
Qed.

(** The member fallback, with the title it caches written as the
    specification words it. *)
Lemma updateNameFromMembers_eq (order : list (string * Event)) (room : Room) :
  updateNameFromMembers eventToRoomMember order room =
    let room1 := (GetMembers eventToRoomMember order room).1 in
    let members := (GetMembers eventToRoomMember order room).2 in
    if decide (mapLen members ≤ 1)%nat
    then Returns (set_nameCache "Empty room" room1)
    else match mapGet members (firstMemberCache room1) with
         | Some other =>
             Returns (set_nameCache
                        (memberCountTitle (mapLen members) other) room1)
         | None => Faults
         end.
Proof.
  unfold updateNameFromMembers.
  destruct (GetMembers eventToRoomMember order room) as [room1 members].
  cbn [fst snd]. unfold memberCountTitle, sprintfAndOthers.
  destruct (decide (mapLen members ≤ 1)%nat) as [Hle | Hle].
  - by rewrite (proj2 (Nat.leb_le _ _) Hle).
  - rewrite (proj2 (Nat.leb_gt _ _)) by lia.
    destruct (decide (mapLen members = 2)) as [H2 | H2].
    + rewrite (proj2 (Nat.eqb_eq _ _) H2). done.
    + rewrite (proj2 (Nat.eqb_neq _ _) H2). done.
Qed.

(** X16: the title rules as the code runs them.  With no title cached: rule 1,
    else rule 2, else rule 3 (each taken when its result is not empty), else
    the member fallback, which gives "Empty room" for at most one member and
    otherwise the title by member count whenever the first other member is in
    the member map. *)
Lemma GetTitle_precedence (aliasOrder memberOrder : list (string * Event))
    (room : Room) :
  nameCache room = "" →
  let get := GetTitle eventToRoomMember aliasOrder memberOrder room in
  let room1 := (GetMembers eventToRoomMember memberOrder room).1 in
  let members := (GetMembers eventToRoomMember memberOrder room).2 in
  (nameField room ≠ "" →
     get = Returns (set_nameCache (nameField room) room, nameField room)) ∧
  (nameField room = "" → canonicalAliasField room ≠ "" →
     get = Returns (set_nameCache (canonicalAliasField room) room,
                    canonicalAliasField room)) ∧
  (nameField room = "" → canonicalAliasField room = "" →
   firstAlias aliasOrder ≠ "" →
     get = Returns (set_nameCache (firstAlias aliasOrder) room,
                    firstAlias aliasOrder)) ∧
  (nameField room = "" → canonicalAliasField room = "" →
   firstAlias aliasOrder = "" →
     ((mapLen members ≤ 1)%nat →
        get = Returns (set_nameCache "Empty room" room1, "Empty room")) ∧
     (∀ other, (2 ≤ mapLen members)%nat →
        mapGet members (firstMemberCache room1) = Some other →
        get = Returns (set_nameCache
                         (memberCountTitle (mapLen members) other) room1,
                       memberCountTitle (mapLen members) other)) ∧
     ((2 ≤ mapLen members)%nat →
        mapGet members (firstMemberCache room1) = None → get = Faults)).
Proof.
  intros Hn get room1 members. subst get. unfold GetTitle.
  rewrite (updateNameCache_unset aliasOrder memberOrder room Hn).
  assert (Hfallback :
    nameField room = "" → canonicalAliasField room = "" →
    firstAlias aliasOrder = "" → stateTitle aliasOrder room = "").
  { intros H1 H2 H3. unfold stateTitle. by repeat case_decide. }
  repeat split.
  - intros H1. unfold stateTitle. rewrite (decide_True _ _ H1).
    by rewrite decide_False.
  - intros H1 H2. unfold stateTitle.
    rewrite (decide_False (P := nameField room ≠ "")) by (intros ?; done).
    rewrite (decide_True _ _ H2). by rewrite decide_False.
  - intros H1 H2 H3. unfold stateTitle.
    rewrite (decide_False (P := nameField room ≠ "")) by (intros ?; done).
    rewrite (decide_False (P := canonicalAliasField room ≠ ""))
      by (intros ?; done).
    by rewrite decide_False.
  - intros Hle. rewrite decide_True by auto.
    rewrite updateNameFromMembers_eq. cbn zeta. fold room1 members.
    by rewrite decide_True.
  - intros other Hge Hget. rewrite decide_True by auto.
    rewrite updateNameFromMembers_eq. cbn zeta. fold room1 members.
    rewrite decide_False by lia. by rewrite Hget.
  - intros Hge Hget. rewrite decide_True by auto.
    rewrite updateNameFromMembers_eq. cbn zeta. fold room1 members.
    rewrite decide_False by lia. by rewrite Hget.
Qed.

End Title.

(** ** Rebuilding the member cache *)

Section Rebuild.

Variable eventToRoomMember : string → Event → Member.

(** A rebuild writes the two member fields and nothing else, and what it
    writes depends only on the state table, the session user and the visiting
    order. *)
Lemma createMemberCache_shape (order : list (string * Event)) (room : Room) :
  ∃ first cache,
    ∀ room', State room' = State room →
             SessionUserID room' = SessionUserID room →
      createMemberCache eventToRoomMember order room' =
        (set_memberCache (Some cache) (set_firstMemberCache first room'),
         cache).
Proof.
  destruct (State room !! "m.room.member") eqn:Hev.
  - exists (firstOther (SessionUserID room) order),
           (cacheLoop eventToRoomMember order ∅).
    intros room' HS Hs. unfold createMemberCache, GetStateEvents.
    rewrite HS, Hev, memberLoop_eq. cbn. rewrite Hs. by destruct room'.
  - exists "", ∅. intros room' HS Hs.
    unfold createMemberCache, GetStateEvents. rewrite HS, Hev.
    by destruct room'.
Qed.

Lemma createMemberCache_idempotent (order : list (string * Event))
    (room : Room) :
  createMemberCache eventToRoomMember order
      (createMemberCache eventToRoomMember order room).1
    = createMemberCache eventToRoomMember order room.
Proof.
  destruct (createMemberCache_shape order room) as (first & cache & Hc).
  rewrite (Hc room eq_refl eq_refl). cbn [fst].
  rewrite Hc by done. by destruct room.
Qed.

Lemma createMemberCache_set_nameCache (order : list (string * Event))
    (s : string) (room : Room) :
  createMemberCache eventToRoomMember order (set_nameCache s room) =
    (set_nameCache s (createMemberCache eventToRoomMember order room).1,
     (createMemberCache eventToRoomMember order room).2).
Proof.
  destruct (createMemberCache_shape order room) as (first & cache & Hc).
  rewrite (Hc room eq_refl eq_refl). by rewrite Hc.
Qed.

Lemma createMemberCache_memberCache (order : list (string * Event))
    (room : Room) :
  memberCache (createMemberCache eventToRoomMember order room).1
    = Some (createMemberCache eventToRoomMember order room).2.
Proof.
  destruct (createMemberCache_shape order room) as (first & cache & Hc).
  by rewrite (Hc room eq_refl eq_refl).
Qed.

Lemma GetMembers_snd (order : list (string * Event)) (room : Room) :
  (GetMembers eventToRoomMember order room).2
    = memberCache (GetMembers eventToRoomMember order room).1.
Proof. reflexivity. Qed.

Lemma GetMembers_set_nameCache (order : list (string * Event)) (s : string)
    (room : Room) :
  GetMembers eventToRoomMember order (set_nameCache s room) =
    (set_nameCache s (GetMembers eventToRoomMember order room).1,
     (GetMembers eventToRoomMember order room).2).
Proof.
  unfold GetMembers. cbn [memberCache set_nameCache].
  destruct (mapLen (memberCache room) =? 0)%nat; [| done].
  by rewrite createMemberCache_set_nameCache.
Qed.

(** [Members()] right after [Members()], with the same visiting order,
    changes nothing and returns the same map. *)
Lemma GetMembers_idempotent (order : list (string * Event)) (room : Room) :
  GetMembers eventToRoomMember order
      (GetMembers eventToRoomMember order room).1
    = GetMembers eventToRoomMember order room.
Proof.
  unfold GetMembers.
  destruct (mapLen (memberCache room) =? 0)%nat eqn:Hlen; cbn [fst].
  - destruct (mapLen (memberCache
               (createMemberCache eventToRoomMember order room).1) =? 0)%nat;
      [| done].
    by rewrite createMemberCache_idempotent.
  - by rewrite Hlen.
Qed.

Lemma GetMembers_State (order : list (string * Event)) (room : Room) :
  State (GetMembers eventToRoomMember order room).1 = State room ∧
  SessionUserID (GetMembers eventToRoomMember order room).1
    = SessionUserID room ∧
  nameCache (GetMembers eventToRoomMember order room).1 = nameCache room.
Proof.
  unfold GetMembers.
  destruct (mapLen (memberCache room) =? 0)%nat; [| done].
  destruct (createMemberCache_shape order room) as (first & cache & Hc).
  by rewrite (Hc room eq_refl eq_refl).
Qed.

(** The room a run of the title resolution leaves: the old one, or the one
    [Members()] leaves, with some title cached. *)
Lemma updateNameCache_shape (aliasOrder memberOrder : list (string * Event))
    (room room' : Room) :
  updateNameCache eventToRoomMember aliasOrder memberOrder room
    = Returns room' →
  ∃ s, nameCache room' = s ∧
    (room' = set_nameCache s room ∨
     room' = set_nameCache s
               (GetMembers eventToRoomMember memberOrder room).1).
Proof.
  destruct (decide (nameCache room = "")) as [Hn | Hn].
  - rewrite (updateNameCache_unset _ _ _ _ Hn). case_decide.
    + rewrite updateNameFromMembers_eq. cbn zeta.
      case_decide; [intros [= <-]; eauto |].
      destruct (mapGet _ _); [intros [= <-]; eauto | done].
    + intros [= <-]. eauto.
  - rewrite (updateNameCache_set _ _ _ _ Hn). intros [= <-].
    exists (nameCache room). split; [done |]. left. by destruct room.
Qed.

Hypothesis eventToRoomMember_UserID :
  ∀ userID event, UserID (eventToRoomMember userID event) = userID.

(** What a rebuild does establish: the member map is the roster (no "leave"
    member in it), and [firstMemberCache] is empty or names a user who has a
    membership event and is not the session user. *)
Lemma createMemberCache_rebuilt (order : list (string * Event)) (room : Room) :
  range_of (GetStateEvents "m.room.member" room) order →
  let room' := (createMemberCache eventToRoomMember order room).1 in
  memberCache room'
    = Some (membersOf eventToRoomMember
              (default ∅ (GetStateEvents "m.room.member" room))) ∧
  (firstMemberCache room' ≠ "" →
     firstMemberCache room' ≠ SessionUserID room' ∧
     is_Some (GetStateEvent "m.room.member" (firstMemberCache room') room')).
Proof.
  intros Hr room'. subst room'.
  rewrite (createMemberCache_eq eventToRoomMember order room Hr).
  cbn [fst memberCache set_memberCache firstMemberCache set_firstMemberCache
       SessionUserID].
  split.
  - f_equal. by apply cacheLoop_membersOf.
  - unfold firstOther. intros Hne.
    destruct (head (filter _ order.*1)) as [u |] eqn:Hhead; [| done].
    cbn in *. apply head_Some_elem_of in Hhead.
    apply list_elem_of_filter in Hhead as [[Hs _] Hin]. split; [done |].
    apply list_elem_of_fmap in Hin as ([u' e] & -> & Hin). cbn.
    unfold GetStateEvent. cbn [State set_memberCache set_firstMemberCache].
    rewrite Hr in Hin. apply elem_of_map_to_list in Hin.
    unfold GetStateEvents in Hin.
    destruct (State room !! "m.room.member"); cbn in *; [eauto |].
    by rewrite lookup_empty in Hin.
Qed.

Lemma GetMembers_coherent (order : list (string * Event)) (room : Room) :
  range_of (GetStateEvents "m.room.member" room) order →
  memberCacheCoherent eventToRoomMember room →
  memberCacheCoherent eventToRoomMember
    (GetMembers eventToRoomMember order room).1.
Proof.
  intros Hr Hc. unfold GetMembers.
  destruct (mapLen (memberCache room) =? 0)%nat; [| done].
  cbn [fst]. right.
  rewrite (proj1 (createMemberCache_rebuilt order room Hr)).
  rewrite (createMemberCache_eq eventToRoomMember order room Hr). done.
Qed.

End Rebuild.

(** ** Invalidation *)

Lemma UpdateState_Returns (event : Event) (room room' : Room) :
  UpdateState event room = Returns room' → is_Some (StateKey event).
Proof. unfold UpdateState. destruct (StateKey event); [eauto | done]. Qed.

Lemma UpdateState_other_type (event : Event) (room room' : Room)
    (eventType : string) :
  UpdateState event room = Returns room' →
  eventType ≠ EvType event →
  State room' !! eventType = State room !! eventType.
Proof.
  intros Hrun Hne.
  destruct (UpdateState_Returns _ _ _ Hrun) as [k Hk].
  destruct (UpdateState_State event k room Hk) as (r & Hr & HS).
  rewrite Hrun in Hr. injection Hr as <-. rewrite HS.
  by rewrite lookup_insert_ne.
Qed.

Lemma UpdateState_caches (event : Event) (room room' : Room) :
  UpdateState event room = Returns room' →
  memberCache room' = memberCache (invalidate (EvType event) room) ∧
  firstMemberCache room' = firstMemberCache (invalidate (EvType event) room) ∧
  nameCache room' = nameCache (invalidate (EvType event) room) ∧
  topicCache room' = topicCache (invalidate (EvType event) room).
Proof.
  unfold UpdateState. destruct (StateKey event); [| done].
  intros [= <-]. unfold invalidate.
  destruct (State room !! EvType event); repeat case_decide; done.
Qed.

(** X17: what [UpdateState] does clear: the member map, the first other member
    and the title on a membership event; the title on a name, canonical-alias
    or [m.room.alias] event; the topic on a topic event. *)
Lemma UpdateState_invalidates (event : Event) (room room' : Room) :
  UpdateState event room = Returns room' →
  (EvType event = "m.room.member" →
     memberCache room' = None ∧ firstMemberCache room' = "" ∧
     nameCache room' = "") ∧
  (EvType event = "m.room.name" ∨ EvType event = "m.room.canonical_alias" ∨
   EvType event = "m.room.alias" → nameCache room' = "") ∧
  (EvType event = "m.room.topic" → topicCache room' = "").
Proof.
  intros Hrun.
  destruct (UpdateState_caches _ _ _ Hrun) as (Hm & Hf & Hn & Ht).
  rewrite Hm, Hf, Hn, Ht. unfold invalidate. split; [| split].
  - intros ->. done.
  - intros [-> | [-> | ->]]; done.
  - intros ->. done.
Qed.

(** ** Rooms a client can hold *)

Section Invariant.

Variable eventToRoomMember : string → Event → Member.

Hypothesis eventToRoomMember_UserID :
  ∀ userID event, UserID (eventToRoomMember userID event) = userID.

Lemma reachable_coherent (room : Room) :
  reachable eventToRoomMember room →
  memberCacheCoherent eventToRoomMember room.
Proof.
  induction 1 as
    [ roomID owner
    | event room room' _ IH Hrun
    | aliasOrder memberOrder room room' title _ IH Ha Hm Hrun
    | room _ IH
    | order room _ IH Hr
    | order userID room _ IH Hr
    | room _ IH
    | room room' _ IH Hrun
    | room room' _ IH Hrun
    | prevBatch unread highlighted hasNew room _ IH ].
  - by left.
  - destruct (UpdateState_caches _ _ _ Hrun) as (Hc & _).
    unfold memberCacheCoherent, GetStateEvents in *. rewrite Hc.
    unfold invalidate.
    destruct (decide (EvType event = "m.room.member")) as [He | He];
      [by left |].
    rewrite (UpdateState_other_type _ _ _ _ Hrun) by done.
    repeat case_decide; done.
  - unfold GetTitle in Hrun.
    destruct (updateNameCache _ _ _ _) as [r |] eqn:Hu; [| done].
    cbn in Hrun. injection Hrun as <- _.
    destruct (updateNameCache_shape _ _ _ _ _ Hu) as (s & _ & [-> | ->]).
    + exact IH.
    + by apply (GetMembers_coherent eventToRoomMember
                  eventToRoomMember_UserID memberOrder room).
  - unfold GetTopic. cbn [fst].
    destruct (lenIsZero (topicCache room)); [| done].
    destruct (GetStateEvent "m.room.topic" "" room); done.
  - by apply GetMembers_coherent.
  - by apply (GetMembers_coherent eventToRoomMember
                eventToRoomMember_UserID order room).
  - exact IH.
  - unfold LockHistory in Hrun.
    destruct (fetchHistoryLock room) as [[[|]] |] eqn:Hl;
      cbn in Hrun; rewrite ?Hl in Hrun; simplify_eq/=; exact IH.
  - unfold UnlockHistory in Hrun.
    destruct (fetchHistoryLock room) as [[[|]] |]; simplify_eq/=; exact IH.
  - exact IH.
Qed.

Lemma reachable_applyEvents (events : list Event) :
  ∀ room room', reachable eventToRoomMember room →
    applyEvents events room = Returns room' →
    reachable eventToRoomMember room'.
Proof.
  induction events as [| e rest IH]; intros room room' Hreach Hrun.
  - by injection Hrun as <-.
  - cbn in Hrun. destruct (UpdateState e room) as [r1 |] eqn:He; [| done].
    cbn in Hrun. eapply IH; [| exact Hrun].
    by eapply reach_UpdateState.
Qed.

End Invariant.

(** ** Lookups *)

(** C9: no lookup fails.  [GetStateEvents] and [GetStateEvent] return nil
    for a type that the table lacks, and [GetStateEvent] returns nil for a key
    that the type's table lacks.  On a room a client can hold, [GetMember]
    returns nil for a user who has no membership event or whose membership is
    "leave"; it rebuilds the member cache first when that is empty, and
    leaves the room alone otherwise. *)
Theorem lookups_absent (eventToRoomMember : string → Event → Member)
    (room : Room) (order : list (string * Event))
    (eventType stateKey userID : string) :
  (∀ u e, UserID (eventToRoomMember u e) = u) →
  reachable eventToRoomMember room →
  range_of (GetStateEvents "m.room.member" room) order →
  (State room !! eventType = None →
     GetStateEvents eventType room = None ∧
     GetStateEvent eventType stateKey room = None) ∧
  (∀ events, State room !! eventType = Some events →
     events !! stateKey = None →
     GetStateEvent eventType stateKey room = None) ∧
  (GetStateEvent "m.room.member" userID room = None ∨
   (∃ e, GetStateEvent "m.room.member" userID room = Some e ∧
         Membership (eventToRoomMember userID e) = "leave") →
     (GetMember eventToRoomMember order userID room).2 = None) ∧
  (GetMember eventToRoomMember order userID room).1 =
    (if Nat.eqb (mapLen (memberCache room)) 0
     then (createMemberCache eventToRoomMember order room).1
     else room).
Proof.
  intros Hid Hreach Hr. split; [| split; [| split]].
  - intros Hty. unfold GetStateEvent, GetStateEvents. by rewrite Hty.
  - intros events Hty Hkey. unfold GetStateEvent. by rewrite Hty.
  - intros Habsent.
    pose proof (reach_GetMember eventToRoomMember order userID room Hreach Hr)
      as Hreach'.
    apply (reachable_coherent eventToRoomMember Hid) in Hreach'.
    assert (HS : State (GetMember eventToRoomMember order userID room).1
                 = State room).
    { apply (GetMembers_State eventToRoomMember order room). }
    change ((GetMember eventToRoomMember order userID room).2) with
      (mapGet (memberCache (GetMember eventToRoomMember order userID room).1)
              userID).
    destruct Hreach' as [-> | ->]; [done |].
    cbn [mapGet]. unfold membersOf, GetStateEvents.
    rewrite map_lookup_imap, HS.
    unfold GetStateEvent in Habsent.
    destruct (State room !! "m.room.member") as [events |]; cbn in *.
    + destruct Habsent as [-> | (e & -> & Hleave)]; [done |].
      cbn. rewrite Hleave. done.
    + by rewrite lookup_empty.
  - reflexivity.
Qed.

Lemma lookups_absent_witness :
  (GetMember eventToRoomMember_model (entriesOf aliceLeftEvents) alice
     (roomWith me aliceLeftEvents)).2 = None.
Proof.
  refine (proj1 (proj2 (proj2
    (lookups_absent eventToRoomMember_model (roomWith me aliceLeftEvents)
       (entriesOf aliceLeftEvents) "m.room.create" "" alice _ _ _))) _).
  - reflexivity.
  - apply (reachable_applyEvents eventToRoomMember_model aliceLeftEvents
             (NewRoom "!room:example.org" me)).
    + apply reach_NewRoom.
    + vm_compute. reflexivity.
  - solve_range_of.
  - right. exists (memberEvent alice "leave" "Alice").
    split; vm_compute; reflexivity.
Defined.

(** ** The title on small rooms *)

Example title_of_name_event :
  ∃ room',
    GetTitle eventToRoomMember_model [] (entriesOf pairEvents)
      (roomWith me (pairEvents ++ [nameEvent "Lounge"]))
    = Returns (room', "Lounge").
Proof. eexists. vm_compute. reflexivity. Qed.

Example title_of_pair :
  ∃ room',
    GetTitle eventToRoomMember_model [] (entriesOf pairEvents)
      (roomWith me pairEvents)
    = Returns (room', "Bob").
Proof. eexists. vm_compute. reflexivity. Qed.

Example title_of_four :
  let events := [joined bob "Bob"; joined alice "Alice"; joined carol "Carol";
                 joined me "Me"] in
  ∃ room',
    GetTitle eventToRoomMember_model [] (entriesOf events) (roomWith me events)
    = Returns (room', "Bob and 2 others").
Proof. eexists. vm_compute. reflexivity. Qed.

Example title_of_lonely :
  ∃ room',
    GetTitle eventToRoomMember_model [] (entriesOf [joined me "Me"])
      (roomWith me [joined me "Me"])
    = Returns (room', "Empty room").
Proof. eexists. vm_compute. reflexivity. Qed.

Example topic_of_topic_event :
  (GetTopic (roomWith me [topicEvent "old"; topicEvent "new"])).2 = "new".
Proof. vm_compute. reflexivity. Qed.

(** ** Where the member fields disagree *)

(** C1, on the room in which only Bob has a membership event and he has
    left: whatever the visiting order, the rebuild names Bob as the first
    other member and leaves him out of the member map. *)
Theorem createMemberCache_first_left (order : list (string * Event)) :
  range_of (GetStateEvents "m.room.member" (roomWith me bobLeftEvents)) order →
  let room' :=
    (createMemberCache eventToRoomMember_model order
       (roomWith me bobLeftEvents)).1 in
  firstMemberCache room' = bob ∧
  memberCache room' = Some ∅ ∧
  mapGet (memberCache room') bob = None ∧
  Membership (eventToRoomMember_model bob (memberEvent bob "leave" "Bob"))
    = "leave".
Proof.
  intros Hr.
  assert (order = entriesOf bobLeftEvents) as ->.
  { unfold range_of in Hr. apply Permutation_singleton_r.
    rewrite Hr. vm_compute. reflexivity. }
  vm_compute. repeat split.
Qed.

Lemma createMemberCache_first_left_witness :
  firstMemberCache
    (createMemberCache eventToRoomMember_model (entriesOf bobLeftEvents)
       (roomWith me bobLeftEvents)).1 = bob.
Proof.
  refine (proj1 (createMemberCache_first_left (entriesOf bobLeftEvents) _)).
  solve_range_of.
Defined.

(** C4, on the room where Alice has left and Bob and the session user are
    members, when Alice's event is visited first: the member map has two
    entries, the first other member is Alice, her lookup gives nil, and
    [GetTitle] does not return. *)
Theorem GetTitle_faults_on_left_first :
  let room := roomWith me aliceLeftEvents in
  let order := entriesOf aliceLeftEvents in
  range_of (GetStateEvents "m.room.aliases" room) [] ∧
  range_of (GetStateEvents "m.room.member" room) order ∧
  nameCache room = "" ∧
  mapLen (GetMembers eventToRoomMember_model order room).2 = 2 ∧
  firstMemberCache (GetMembers eventToRoomMember_model order room).1 = alice ∧
  mapGet (GetMembers eventToRoomMember_model order room).2 alice = None ∧
  GetTitle eventToRoomMember_model [] order room = Faults.
Proof.
  cbv zeta. split; [solve_range_of |]. split; [solve_range_of |].
  vm_compute. repeat split.
Qed.

(** C3, on the room where Alice has left and Bob, Carol and the session user
    are members, when Alice's event is visited first: no rule gives a title
    from the state events, the member map has three entries, and instead of a
    title of the form "<name> and 1 others" the run does not return. *)
Theorem GetTitle_no_title_for_three :
  let room := roomWith me aliceLeftOfFourEvents in
  let order := entriesOf aliceLeftOfFourEvents in
  range_of (GetStateEvents "m.room.aliases" room) [] ∧
  range_of (GetStateEvents "m.room.member" room) order ∧
  nameCache room = "" ∧
  stateTitle [] room = "" ∧
  mapLen (GetMembers eventToRoomMember_model order room).2 = 3 ∧
  GetTitle eventToRoomMember_model [] order room = Faults.
Proof.
  cbv zeta. split; [solve_range_of |]. split; [solve_range_of |].
  vm_compute. repeat split.
Qed.

(** C2, on a room whose title "Empty room" is cached: applying an
    [m.room.aliases] event leaves the title cache as it was, and [GetTitle]
    goes on returning "Empty room" although resolving the title afresh gives
    the alias the event carries. *)
Theorem UpdateState_aliases_keeps_title
    (eventToRoomMember : string → Event → Member) :
  let event := goodAliases in
  let order := entriesOf [goodAliases] in
  GetTitle eventToRoomMember [] [] (NewRoom "!room:example.org" me)
    = Returns (titledRoom, "Empty room") ∧
  ∃ room',
    UpdateState event titledRoom = Returns room' ∧
    range_of (GetStateEvents "m.room.aliases" room') order ∧
    nameCache room' = "Empty room" ∧
    GetTitle eventToRoomMember order [] room' = Returns (room', "Empty room") ∧
    GetTitle eventToRoomMember order [] (set_nameCache "" room')
      = Returns (set_nameCache "#room:b.example.org" room',
                 "#room:b.example.org").
Proof.
  cbv zeta. split; [vm_compute; reflexivity |].
  destruct (UpdateState_State goodAliases "b.example.org" titledRoom eq_refl)
    as (room' & Hrun & _).
  exists room'. split; [exact Hrun |].
  vm_compute in Hrun. injection Hrun as <-.
  split; [solve_range_of |].
  repeat split; vm_compute; reflexivity.
Qed.

(** ** Asking twice *)

Lemma stateTitle_State (aliasOrder : list (string * Event)) (room room' : Room) :
  State room' = State room →
  stateTitle aliasOrder room' = stateTitle aliasOrder room.
Proof.
  intros HS.
  unfold stateTitle, nameField, canonicalAliasField, GetStateEvent.
  by rewrite HS.
Qed.

Lemma GetTopic_twice (room : Room) :
  GetTopic (GetTopic room).1 = GetTopic room.
Proof.
  unfold GetTopic. cbn [fst].
  destruct (lenIsZero (topicCache room)) eqn:Hz.
  - destruct (GetStateEvent "m.room.topic" "" room) as [e |] eqn:He.
    + cbn [topicCache set_topicCache].
      destruct (lenIsZero (assertString (Content e !! "topic"))) eqn:Hz';
        [| done].
      change (GetStateEvent "m.room.topic" ""
                (set_topicCache (assertString (Content e !! "topic")) room))
        with (GetStateEvent "m.room.topic" "" room).
      rewrite He. by destruct room.
    + by rewrite Hz, He.
  - by rewrite Hz.
Qed.

Section Stable.

Variable eventToRoomMember : string → Event → Member.

(** A title that was returned non-empty is cached: every later call returns
    it and leaves the room alone, whatever order its loops would take. *)
Lemma GetTitle_cached (aliasOrder memberOrder aliasOrder' memberOrder' :
    list (string * Event)) (room room1 : Room) (title : string) :
  GetTitle eventToRoomMember aliasOrder memberOrder room
    = Returns (room1, title) →
  title ≠ "" →
  GetTitle eventToRoomMember aliasOrder' memberOrder' room1
    = Returns (room1, title).
Proof.
  unfold GetTitle. intros Hrun Hne.
  destruct (updateNameCache _ aliasOrder _ room) as [r |] eqn:Hu; [| done].
  cbn in Hrun. injection Hrun as <- <-.
  by rewrite updateNameCache_set.
Qed.

(** With the same visiting orders the second call repeats the first. *)
Lemma GetTitle_same_order (aliasOrder memberOrder : list (string * Event))
    (room room1 : Room) (title : string) :
  GetTitle eventToRoomMember aliasOrder memberOrder room
    = Returns (room1, title) →
  GetTitle eventToRoomMember aliasOrder memberOrder room1
    = Returns (room1, title).
Proof.
  intros Hrun.
  destruct (decide (title = "")) as [-> | Hne];
    [| by eapply GetTitle_cached].
  unfold GetTitle in *.
  destruct (updateNameCache _ aliasOrder _ room) as [r |] eqn:Hu; [| done].
  cbn in Hrun. injection Hrun as -> Hn1.
  assert (Hn : nameCache room = "").
  { destruct (decide (nameCache room = "")) as [| Hn]; [done |].
    rewrite (updateNameCache_set _ _ _ _ Hn) in Hu. congruence. }
  rewrite (updateNameCache_unset _ _ _ _ Hn) in Hu.
  destruct (decide (stateTitle aliasOrder room = "")) as [Hst | Hst];
    [| injection Hu as <-; done].
  pose proof Hu as Hm. rewrite updateNameFromMembers_eq in Hm. cbn zeta in Hm.
  assert (Hroom1 : room1 = (GetMembers eventToRoomMember memberOrder room).1).
  { destruct (GetMembers_State eventToRoomMember memberOrder room)
      as (_ & _ & Hnc).
    case_decide.
    - injection Hm as <-. done.
    - destruct (mapGet _ _); [| done]. injection Hm as <-.
      cbn in Hn1. rewrite Hn1. apply set_nameCache_id. congruence. }
  assert (Hagain :
    updateNameFromMembers eventToRoomMember memberOrder room1
      = updateNameFromMembers eventToRoomMember memberOrder room).
  { rewrite !updateNameFromMembers_eq. cbn zeta.
    by rewrite Hroom1, GetMembers_idempotent. }
  rewrite (updateNameCache_unset _ _ _ _ Hn1).
  rewrite decide_True.
  - rewrite Hagain, Hu. cbn. by rewrite Hn1.
  - rewrite <- Hst. apply stateTitle_State. rewrite Hroom1.
    apply GetMembers_State.
Qed.

End Stable.

(** C8, refuted as stated: in [twoAliasRoom] no rule gives a non-empty
    title when the loop over the alias events meets [oddAliases] first, so
    the first [GetTitle] returns the empty string and caches nothing; the
    second call, whose loop meets [goodAliases] first, returns the alias. *)
Lemma GetTitle_twice_differs :
  let first := entriesOf [oddAliases; goodAliases] in
  let second := entriesOf [goodAliases; oddAliases] in
  let members := entriesOf namelessEvents in
  range_of (GetStateEvents "m.room.aliases" twoAliasRoom) first ∧
  range_of (GetStateEvents "m.room.aliases" twoAliasRoom) second ∧
  range_of (GetStateEvents "m.room.member" twoAliasRoom) members ∧
  ∃ room1,
    GetTitle eventToRoomMember_model first members twoAliasRoom
      = Returns (room1, "") ∧
    State room1 = State twoAliasRoom ∧
    GetTitle eventToRoomMember_model second members room1
      = Returns (set_nameCache "#room:b.example.org" room1,
                 "#room:b.example.org").
Proof.
  cbv zeta. split; [solve_range_of |]. split; [solve_range_of |].
  split; [solve_range_of |].
  eexists. split; [vm_compute; reflexivity |].
  split; vm_compute; reflexivity.
Qed.

(** C8, amended: [GetTopic] called twice in a row returns the same topic
    both times (and the second call leaves the room alone).  [GetTitle] called
    twice in a row returns the same title both times whenever the first title
    is not empty (it is then cached), and also whenever the loops of the two
    calls visit the map entries in the same order. *)
Theorem title_topic_stable (eventToRoomMember : string → Event → Member)
    (aliasOrder memberOrder : list (string * Event))
    (room room1 : Room) (title : string) :
  GetTitle eventToRoomMember aliasOrder memberOrder room
    = Returns (room1, title) →
  GetTopic (GetTopic room).1 = GetTopic room ∧
  (title ≠ "" → ∀ aliasOrder' memberOrder',
     GetTitle eventToRoomMember aliasOrder' memberOrder' room1
       = Returns (room1, title)) ∧
  GetTitle eventToRoomMember aliasOrder memberOrder room1
    = Returns (room1, title).
Proof.
  intros Hrun. split; [apply GetTopic_twice |]. split.
  - intros Hne aliasOrder' memberOrder'.
    exact (GetTitle_cached eventToRoomMember aliasOrder memberOrder
             aliasOrder' memberOrder' room room1 title Hrun Hne).
  - exact (GetTitle_same_order eventToRoomMember aliasOrder memberOrder
             room room1 title Hrun).
Qed.

Lemma title_topic_stable_witness :
  ∃ room1,
    GetTitle eventToRoomMember_model [] (entriesOf pairEvents)
      (roomWith me pairEvents) = Returns (room1, "Bob") ∧
    GetTitle eventToRoomMember_model [] (rev (entriesOf pairEvents)) room1
      = Returns (room1, "Bob").
Proof.
  eexists. split; [vm_compute; reflexivity |].
  refine (proj1 (proj2
    (title_topic_stable eventToRoomMember_model [] (entriesOf pairEvents)
       (roomWith me pairEvents) _ "Bob" _)) _ [] _).
  - vm_compute. reflexivity.
  - done.
Defined.

(** ** The history guard *)

(** C5, on a room whose guard was never created and two callers of
    [LockHistory]: both see nil before either has stored a mutex, each stores
    and locks a mutex of its own, and both calls return.  Two callers hold
    the guard at once; neither has called [UnlockHistory]. *)
Theorem LockHistory_two_holders :
  HistoryLock.run [0; 1; 0; 0; 1; 1] (HistoryLock.start None [] 2) =
    Some {| HistoryLock.shared :=
              {| HistoryLock.guard := Some 1;
                 HistoryLock.mutexes := [true; true] |};
            HistoryLock.callers :=
              [HistoryLock.Holding; HistoryLock.Holding] |} ∧
  ∃ w, HistoryLock.run [0; 1; 0; 0; 1; 1] (HistoryLock.start None [] 2)
         = Some w ∧
       HistoryLock.holders w = 2.
Proof.
  split; [reflexivity |]. eexists. split; reflexivity.
Qed.

Lemma holders_insert (l : list HistoryLock.point) (i : nat)
    (p p' : HistoryLock.point) :
  l !! i = Some p →
  (length (filter (λ q, HistoryLock.inside q = true) (<[i := p']> l))
     + (if HistoryLock.inside p then 1 else 0)
   = length (filter (λ q, HistoryLock.inside q = true) l)
     + (if HistoryLock.inside p' then 1 else 0))%nat.
Proof.
  revert i. induction l as [| q l IH]; intros [| i] Hi; try done.
  - cbn in Hi. injection Hi as ->. cbn [insert list_insert].
    rewrite !filter_cons. clear IH.
    destruct (HistoryLock.inside p), (HistoryLock.inside p');
      repeat case_decide; try done; cbn [length]; lia.
  - cbn in Hi. cbn [insert list_insert]. rewrite !filter_cons.
    specialize (IH i Hi).
    case_decide; cbn [length Nat.add]; [f_equal |]; exact IH.
Qed.

Lemma eagerInvariant_step (i : nat) (w w' : HistoryLock.world) :
  eagerInvariant w → HistoryLock.step i w = Some w' → eagerInvariant w'.
Proof.
  intros (Hg & Hall & b & Hm & Hh) Hstep.
  unfold HistoryLock.step in Hstep.
  destruct (HistoryLock.callers w !! i) as [p |] eqn:Hp; [| done].
  cbn in Hstep.
  pose proof (Forall_lookup_1 _ _ _ _ Hall Hp) as Hnc. cbn in Hnc.
  assert (Hcount := λ p', holders_insert (HistoryLock.callers w) i p p' Hp).
  fold (HistoryLock.holders w) in Hcount. unfold eagerInvariant.
  destruct p; cbn in Hstep; rewrite ?Hg, ?Hm in Hstep; cbn in Hstep;
    try done.
  - (* LockTest *)
    injection Hstep as <-. cbn. split; [done |].
    split; [by apply Forall_insert |].
    exists b. split; [done |]. unfold HistoryLock.holders. cbn.
    specialize (Hcount HistoryLock.LockAcquire). cbn in Hcount. lia.
  - (* LockAcquire *)
    destruct b; [done |]. injection Hstep as <-. cbn. split; [done |].
    split; [by apply Forall_insert |].
    exists true. split; [done |]. unfold HistoryLock.holders. cbn.
    specialize (Hcount HistoryLock.Holding). cbn in Hcount. lia.
  - (* Holding *)
    injection Hstep as <-. cbn. split; [done |].
    split; [by apply Forall_insert |].
    exists b. split; [done |]. unfold HistoryLock.holders. cbn.
    specialize (Hcount HistoryLock.UnlockTest). cbn in Hcount. lia.
  - (* UnlockTest *)
    injection Hstep as <-. cbn. split; [done |].
    split; [by apply Forall_insert |].
    exists b. split; [done |]. unfold HistoryLock.holders. cbn.
    specialize (Hcount HistoryLock.UnlockRelease). cbn in Hcount. lia.
  - (* UnlockRelease *)
    specialize (Hcount HistoryLock.Finished). cbn in Hcount.
    destruct b; [| lia]. injection Hstep as <-. cbn. split; [done |].
    split; [by apply Forall_insert |].
    exists false. split; [done |]. unfold HistoryLock.holders. cbn. lia.
Qed.

(** X19: the guard does its work when it exists before the first call, as in a
    room made by [NewRoom]: however many callers, however interleaved, at
    most one is inside at any time. *)
Lemma LockHistory_eager_excludes (n : nat) (schedule : list nat)
    (w : HistoryLock.world) :
  HistoryLock.run schedule (HistoryLock.start (Some 0) [false] n) = Some w →
  (HistoryLock.holders w ≤ 1)%nat.
Proof.
  assert (Hstart : eagerInvariant (HistoryLock.start (Some 0) [false] n)).
  { split; [done |]. split.
    - apply Forall_replicate. done.
    - exists false. split; [done |]. unfold HistoryLock.holders. cbn.
      induction n as [| n IH]; [done |]. cbn. exact IH. }
  revert Hstart. generalize (HistoryLock.start (Some 0) [false] n).
  induction schedule as [| i rest IH]; intros w0 Hinv Hrun.
  - injection Hrun as <-. destruct Hinv as (_ & _ & b & _ & ->).
    destruct b; lia.
  - cbn in Hrun. destruct (HistoryLock.step i w0) as [w1 |] eqn:Hstep;
      [| done].
    cbn in Hrun. eapply IH; [| exact Hrun].
    by eapply eagerInvariant_step.
Qed.

(** * Further properties of the room code *)

(** ** More on [UpdateState] *)

Lemma invalidate_set_State (S : gmap string (gmap string Event))
    (eventType : string) (room : Room) :
  invalidate eventType (set_State S room)
    = set_State S (invalidate eventType room).
Proof. unfold invalidate. repeat case_decide; reflexivity. Qed.

Lemma invalidate_idempotent (eventType : string) (room : Room) :
  invalidate eventType (invalidate eventType room) = invalidate eventType room.
Proof. unfold invalidate. repeat case_decide; reflexivity. Qed.

Lemma invalidate_commute (t1 t2 : string) (room : Room) :
  invalidate t1 (invalidate t2 room) = invalidate t2 (invalidate t1 room).
Proof. unfold invalidate. repeat case_decide; reflexivity. Qed.

(** [UpdateState] in one piece: the invalidated room with the event filed. *)
Lemma UpdateState_eq (event : Event) (stateKey : string) (room : Room) :
  StateKey event = Some stateKey →
  UpdateState event room =
    Returns (set_State (fileEvent event stateKey (State room))
               (invalidate (EvType event) room)).
Proof.
  intros Hk.
  destruct (UpdateState_State event stateKey room Hk) as (room' & Hrun & HS).
  rewrite Hrun. f_equal.
  destruct (UpdateState_caches _ _ _ Hrun) as (Hm & Hf & Hn & Ht).
  unfold UpdateState in Hrun. rewrite Hk in Hrun. injection Hrun as Hrun.
  assert (Hrest : ID room' = ID room ∧ PrevBatch room' = PrevBatch room ∧
    SessionUserID room' = SessionUserID room ∧
    UnreadMessages room' = UnreadMessages room ∧
    Highlighted room' = Highlighted room ∧
    HasNewMessages room' = HasNewMessages room ∧
    fetchHistoryLock room' = fetchHistoryLock room).
  { rewrite <- Hrun. unfold invalidate.
    destruct (State room !! EvType event); repeat case_decide; cbn; done. }
  destruct Hrest as (H1 & H2 & H3 & H4 & H5 & H6 & H7).
  unfold fileEvent. rewrite <- HS. clear Hrun.
  assert (Hinv : ID (invalidate (EvType event) room) = ID room ∧
    PrevBatch (invalidate (EvType event) room) = PrevBatch room ∧
    SessionUserID (invalidate (EvType event) room) = SessionUserID room ∧
    UnreadMessages (invalidate (EvType event) room) = UnreadMessages room ∧
    Highlighted (invalidate (EvType event) room) = Highlighted room ∧
    HasNewMessages (invalidate (EvType event) room) = HasNewMessages room ∧
    fetchHistoryLock (invalidate (EvType event) room) = fetchHistoryLock room).
  { unfold invalidate. repeat case_decide; done. }
  destruct Hinv as (I1 & I2 & I3 & I4 & I5 & I6 & I7).
  destruct room'. unfold set_State. cbn in *.
  rewrite I1, I2, I3, I4, I5, I6, I7. congruence.
Qed.

(** X1: a run of [UpdateState] over a list of events returns exactly when
    every event carries a state key; one event without a state key makes the
    run fault. *)
Theorem applyEvents_returns_iff (events : list Event) (room : Room) :
  (∃ room', applyEvents events room = Returns room') ↔
  Forall (λ e, is_Some (StateKey e)) events.
Proof.
  revert room. induction events as [| e rest IH]; intros room.
  - split; [constructor | eauto].
  - cbn [applyEvents]. split.
    + intros (room' & Hrun).
      destruct (UpdateState e room) as [r1 |] eqn:He; [| done].
      constructor; [by eapply UpdateState_Returns |].
      apply (IH r1). eauto.
    + intros Hall. apply Forall_cons in Hall as [[k Hk] Hrest].
      rewrite (UpdateState_eq e k room Hk). cbn. by apply IH.
Qed.

(** X2: [UpdateState] never touches the room ID, the pagination token, the
    session user, the notification fields or the history guard.  It leaves
    the member cache and the first other member alone unless the event is a
    membership event, the title cache alone unless the event is of one of
    the four types of the title switch, and the topic cache alone unless the
    event is a topic event. *)
Theorem UpdateState_frame (event : Event) (room room' : Room) :
  UpdateState event room = Returns room' →
  ID room' = ID room ∧ PrevBatch room' = PrevBatch room ∧
  SessionUserID room' = SessionUserID room ∧
  UnreadMessages room' = UnreadMessages room ∧
  Highlighted room' = Highlighted room ∧
  HasNewMessages room' = HasNewMessages room ∧
  fetchHistoryLock room' = fetchHistoryLock room ∧
  (EvType event ≠ "m.room.member" →
     memberCache room' = memberCache room ∧
     firstMemberCache room' = firstMemberCache room) ∧
  (EvType event ≠ "m.room.member" → EvType event ≠ "m.room.name" →
   EvType event ≠ "m.room.canonical_alias" → EvType event ≠ "m.room.alias" →
     nameCache room' = nameCache room) ∧
  (EvType event ≠ "m.room.topic" → topicCache room' = topicCache room).
Proof.
  intros Hrun. destruct (UpdateState_Returns _ _ _ Hrun) as [k Hk].
  rewrite (UpdateState_eq event k room Hk) in Hrun. injection Hrun as <-.
  unfold invalidate. repeat split; intros; repeat case_decide; done.
Qed.

Lemma UpdateState_frame_witness :
  ∃ room',
    UpdateState (topicEvent "news") (MarkRead titledRoom) = Returns room' ∧
    nameCache room' = "Empty room" ∧ UnreadMessages room' = 0%Z.
Proof.
  destruct (UpdateState_State (topicEvent "news") "" (MarkRead titledRoom)
              eq_refl) as (room' & Hrun & _).
  exists room'. split; [exact Hrun |].
  pose proof (UpdateState_frame _ _ _ Hrun) as
    (_ & _ & _ & Hu & _ & _ & _ & _ & Hn & _).
  split; [rewrite Hn; done | by rewrite Hu].
Defined.

(** X3: state events are never removed: whatever events are applied, a pair
    (type, state key) that has an event keeps having one. *)
Theorem applyEvents_keeps_pairs (events : list Event) (room room' : Room)
    (eventType stateKey : string) :
  applyEvents events room = Returns room' →
  is_Some (GetStateEvent eventType stateKey room) →
  is_Some (GetStateEvent eventType stateKey room').
Proof.
  revert room. induction events as [| e rest IH]; intros room Hrun Hsome.
  - by injection Hrun as <-.
  - cbn in Hrun. destruct (UpdateState e room) as [r1 |] eqn:He; [| done].
    cbn in Hrun. apply (IH r1 Hrun).
    destruct (UpdateState_Returns _ _ _ He) as [k Hk].
    rewrite (GetStateEvent_UpdateState e k room r1 _ _ Hk He).
    case_decide; [eauto | done].
Qed.

Lemma applyEvents_keeps_pairs_witness :
  is_Some (GetStateEvent "m.room.topic" ""
             (roomWith me [topicEvent "old"; nameEvent "n"; topicEvent "new"])).
Proof.
  apply (applyEvents_keeps_pairs [nameEvent "n"; topicEvent "new"]
           (roomWith me [topicEvent "old"])).
  - vm_compute. reflexivity.
  - vm_compute. eauto.
Defined.

(** X4: applying the same event again changes nothing: a redelivered event
    leaves the room exactly as the first delivery left it. *)
Theorem UpdateState_idempotent (event : Event) (room room' : Room) :
  UpdateState event room = Returns room' →
  UpdateState event room' = Returns room'.
Proof.
  intros Hrun. destruct (UpdateState_Returns _ _ _ Hrun) as [k Hk].
  rewrite (UpdateState_eq event k room Hk) in Hrun. injection Hrun as <-.
  rewrite (UpdateState_eq event k _ Hk). f_equal.
  rewrite invalidate_set_State, invalidate_idempotent.
  cbn [State set_State]. unfold fileEvent.
  rewrite lookup_insert_eq. cbn [default from_option id].
  rewrite !insert_insert_eq.
  by destruct (invalidate (EvType event) room).
Qed.

Lemma UpdateState_idempotent_witness :
  UpdateState (topicEvent "news") (roomWith me [topicEvent "news"])
    = Returns (roomWith me [topicEvent "news"]).
Proof.
  apply (UpdateState_idempotent (topicEvent "news")
           (NewRoom "!room:example.org" me)).
  vm_compute. reflexivity.
Defined.

Lemma fileEvent_commute (e1 e2 : Event) (k1 k2 : string)
    (S : gmap string (gmap string Event)) :
  (EvType e1, k1) ≠ (EvType e2, k2) →
  fileEvent e2 k2 (fileEvent e1 k1 S) = fileEvent e1 k1 (fileEvent e2 k2 S).
Proof.
  intros Hne. unfold fileEvent.
  destruct (decide (EvType e1 = EvType e2)) as [Ht | Ht].
  - rewrite <- Ht. rewrite !lookup_insert_eq. cbn [default from_option id].
    rewrite !insert_insert_eq. f_equal.
    apply insert_insert_ne. congruence.
  - rewrite (lookup_insert_ne _ (EvType e1) (EvType e2)) by done.
    rewrite (lookup_insert_ne _ (EvType e2) (EvType e1)) by done.
    by apply insert_insert_ne.
Qed.

(** X5: two events filed under different (type, state key) pairs can be
    applied in either order: the room that results is the same. *)
Theorem UpdateState_commute (e1 e2 : Event) (k1 k2 : string) (room : Room) :
  StateKey e1 = Some k1 → StateKey e2 = Some k2 →
  (EvType e1, k1) ≠ (EvType e2, k2) →
  applyEvents [e1; e2] room = applyEvents [e2; e1] room.
Proof.
  intros H1 H2 Hne. cbn [applyEvents].
  rewrite (UpdateState_eq e1 k1 room H1), (UpdateState_eq e2 k2 room H2).
  cbn [obind].
  rewrite (UpdateState_eq e2 k2 _ H2), (UpdateState_eq e1 k1 _ H1).
  cbn [obind]. f_equal.
  rewrite !invalidate_set_State. cbn [State set_State].
  rewrite (fileEvent_commute e1 e2 k1 k2 _ Hne).
  rewrite (invalidate_commute (EvType e2) (EvType e1)).
  by destruct (invalidate (EvType e1) (invalidate (EvType e2) room)).
Qed.

Lemma UpdateState_commute_witness :
  applyEvents [topicEvent "t"; nameEvent "n"] (NewRoom "!room:example.org" me)
    = applyEvents [nameEvent "n"; topicEvent "t"]
        (NewRoom "!room:example.org" me).
Proof.
  apply (UpdateState_commute (topicEvent "t") (nameEvent "n") "" "");
    [reflexivity | reflexivity | by intros [=]].
Defined.

(** ** What the read accessors write *)

Section Accessors.

Variable eventToRoomMember : string → Event → Member.

Lemma GetMembers_shape (order : list (string * Event)) (room : Room) :
  ∃ cache first,
    (GetMembers eventToRoomMember order room).1
      = set_memberCache cache (set_firstMemberCache first room).
Proof.
  unfold GetMembers. destruct (mapLen (memberCache room) =? 0)%nat.
  - destruct (createMemberCache_shape eventToRoomMember order room)
      as (first & cache & Hc).
    exists (Some cache), first. by rewrite (Hc room eq_refl eq_refl).
  - exists (memberCache room), (firstMemberCache room). by destruct room.
Qed.

Lemma GetTitle_shape (aliasOrder memberOrder : list (string * Event))
    (room room' : Room) (title : string) :
  GetTitle eventToRoomMember aliasOrder memberOrder room
    = Returns (room', title) →
  ∃ cache first,
    room' = set_nameCache title
              (set_memberCache cache (set_firstMemberCache first room)).
Proof.
  unfold GetTitle. intros Hrun.
  destruct (updateNameCache _ _ _ room) as [r |] eqn:Hu; [| done].
  cbn in Hrun. injection Hrun as <- <-.
  destruct (updateNameCache_shape _ _ _ _ _ Hu) as (s & Hs & [Hr | Hr]).
  - exists (memberCache room), (firstMemberCache room).
    rewrite Hs. rewrite Hr at 1. by destruct room.
  - destruct (GetMembers_shape memberOrder room) as (cache & first & Hm).
    exists cache, first. rewrite Hs. rewrite Hr at 1. by rewrite Hm.
Qed.

(** X6: the read accessors write to caches only.  [GetTopic] changes nothing
    but the topic cache; a [GetTitle] that returns changes nothing but the
    title cache, the member cache and the first other member; [GetMembers],
    [GetMember] and [GetSessionOwner] change nothing but the member cache and
    the first other member.  None of them touches the state table, the
    notification fields, the pagination token or the history guard. *)
Theorem accessors_write_caches_only
    (aliasOrder memberOrder : list (string * Event)) (userID : string)
    (room : Room) :
  (onlyCachesDiffer room (GetTopic room).1 ∧
   nameCache (GetTopic room).1 = nameCache room ∧
   memberCache (GetTopic room).1 = memberCache room ∧
   firstMemberCache (GetTopic room).1 = firstMemberCache room) ∧
  (∀ room' title,
     GetTitle eventToRoomMember aliasOrder memberOrder room
       = Returns (room', title) →
     onlyCachesDiffer room room' ∧ topicCache room' = topicCache room) ∧
  (onlyCachesDiffer room (GetMembers eventToRoomMember memberOrder room).1 ∧
   nameCache (GetMembers eventToRoomMember memberOrder room).1
     = nameCache room ∧
   topicCache (GetMembers eventToRoomMember memberOrder room).1
     = topicCache room) ∧
  (GetMember eventToRoomMember memberOrder userID room).1
    = (GetMembers eventToRoomMember memberOrder room).1 ∧
  (GetSessionOwner eventToRoomMember memberOrder room).1
    = (GetMembers eventToRoomMember memberOrder room).1.
Proof.
  split; [| split; [| split; [| split]]].
  - unfold GetTopic. cbn [fst].
    destruct (lenIsZero (topicCache room)); [| by repeat split].
    destruct (GetStateEvent "m.room.topic" "" room); by repeat split.
  - intros room' title Hrun.
    destruct (GetTitle_shape _ _ _ _ _ Hrun) as (cache & first & ->).
    by repeat split.
  - destruct (GetMembers_shape memberOrder room) as (cache & first & ->).
    by repeat split.
  - reflexivity.
  - reflexivity.
Qed.

End Accessors.

Lemma accessors_write_caches_only_witness :
  ∃ room',
    GetTitle eventToRoomMember_model [] (entriesOf pairEvents)
      (roomWith me pairEvents) = Returns (room', "Bob") ∧
    State room' = State (roomWith me pairEvents).
Proof.
  eexists. split; [vm_compute; reflexivity |].
  refine (proj1 (proj2 (proj1 (proj1 (proj2
    (accessors_write_caches_only eventToRoomMember_model []
       (entriesOf pairEvents) me (roomWith me pairEvents))) _ "Bob" _)))).
  vm_compute. reflexivity.
Defined.

(** ** The caches of a room a client can hold *)

Lemma fileEvent_lookup_ne (event : Event) (stateKey eventType : string)
    (S : gmap string (gmap string Event)) :
  eventType ≠ EvType event →
  fileEvent event stateKey S !! eventType = S !! eventType.
Proof. intros Hne. unfold fileEvent. by rewrite lookup_insert_ne. Qed.

Lemma fileEvent_lookup_eq (event : Event) (stateKey : string)
    (S : gmap string (gmap string Event)) :
  mapGet (fileEvent event stateKey S !! EvType event) stateKey = Some event.
Proof.
  unfold fileEvent. rewrite lookup_insert_eq. cbn. by rewrite lookup_insert_eq.
Qed.

Lemma invalidate_fields (eventType : string) (room : Room) :
  SessionUserID (invalidate eventType room) = SessionUserID room ∧
  (eventType ≠ "m.room.topic" →
     topicCache (invalidate eventType room) = topicCache room) ∧
  (eventType = "m.room.topic" → topicCache (invalidate eventType room) = "") ∧
  (eventType ≠ "m.room.member" →
     memberCache (invalidate eventType room) = memberCache room ∧
     firstMemberCache (invalidate eventType room) = firstMemberCache room) ∧
  (eventType = "m.room.member" →
     memberCache (invalidate eventType room) = None ∧
     firstMemberCache (invalidate eventType room) = "" ∧
     nameCache (invalidate eventType room) = "") ∧
  (eventType = "m.room.name" → nameCache (invalidate eventType room) = "") ∧
  (nameCache (invalidate eventType room) = "" ∨
   nameCache (invalidate eventType room) = nameCache room).
Proof.
  unfold invalidate.
  repeat split; intros; repeat case_decide; subst; auto; done.
Qed.

Section Caches.

Variable eventToRoomMember : string → Event → Member.

(** When the table holds a room name, [GetTitle] returns it and caches it. *)
Lemma GetTitle_of_nameField (aliasOrder memberOrder : list (string * Event))
    (room : Room) :
  nameField room ≠ "" →
  nameCacheCoherent room →
  GetTitle eventToRoomMember aliasOrder memberOrder room
    = Returns (set_nameCache (nameField room) room, nameField room).
Proof.
  intros Hnf Hc. unfold GetTitle.
  destruct (decide (nameCache room = "")) as [Hn | Hn].
  - rewrite (updateNameCache_unset _ _ _ _ Hn).
    assert (Hst : stateTitle aliasOrder room = nameField room).
    { unfold stateTitle. by rewrite decide_True. }
    rewrite Hst. by rewrite decide_False.
  - rewrite (updateNameCache_set _ _ _ _ Hn). cbn.
    destruct (Hc Hnf) as [? | Heq]; [done |].
    by rewrite (set_nameCache_id room _ Heq), Heq.
Qed.

Lemma GetMembers_firstCoherent (order : list (string * Event)) (room : Room) :
  range_of (GetStateEvents "m.room.member" room) order →
  firstMemberCoherent room →
  firstMemberCoherent (GetMembers eventToRoomMember order room).1.
Proof.
  intros Hr Hc. unfold GetMembers.
  destruct (mapLen (memberCache room) =? 0)%nat; [| done].
  cbn [fst]. right. exists order.
  by rewrite (createMemberCache_eq eventToRoomMember order room Hr).
Qed.

Lemma reachable_caches (room : Room) :
  reachable eventToRoomMember room →
  topicCacheCoherent room ∧ nameCacheCoherent room ∧ firstMemberCoherent room.
Proof.
  induction 1 as
    [ roomID owner
    | event room room' _ (IHt & IHn & IHf) Hrun
    | aliasOrder memberOrder room room' title _ (IHt & IHn & IHf) Ha Hm Hrun
    | room _ (IHt & IHn & IHf)
    | order room _ (IHt & IHn & IHf) Hr
    | order userID room _ (IHt & IHn & IHf) Hr
    | room _ IH
    | room room' _ IH Hrun
    | room room' _ IH Hrun
    | prevBatch unread highlighted hasNew room _ IH ].
  - split; [by left |]. split; [by left |]. left. done.
  - destruct (UpdateState_Returns _ _ _ Hrun) as [k Hk].
    rewrite (UpdateState_eq event k room Hk) in Hrun. injection Hrun as <-.
    destruct (invalidate_fields (EvType event) room)
      as (Hs & Htn & Hte & Hmn & Hme & Hne & Hnc).
    split; [| split].
    + unfold topicCacheCoherent, topicField, GetStateEvent.
      cbn [topicCache State set_State].
      destruct (decide (EvType event = "m.room.topic")) as [He | He].
      * left. by apply Hte.
      * rewrite (Htn He), fileEvent_lookup_ne by done. exact IHt.
    + unfold nameCacheCoherent, nameField, GetStateEvent.
      cbn [nameCache State set_State].
      destruct (decide (EvType event = "m.room.name")) as [He | He].
      * intros _. left. by apply Hne.
      * rewrite fileEvent_lookup_ne by done. intros Hnf.
        destruct Hnc as [-> | ->]; [by left | by apply IHn].
    + unfold firstMemberCoherent, GetStateEvents.
      cbn [memberCache firstMemberCache SessionUserID State set_State].
      destruct (decide (EvType event = "m.room.member")) as [He | He].
      * left. destruct (Hme He) as (? & ? & _). done.
      * destruct (Hmn He) as [-> ->].
        rewrite Hs, fileEvent_lookup_ne by done. exact IHf.
  - split; [| split].
    + destruct (GetTitle_shape _ _ _ _ _ _ Hrun) as (cache & first & ->).
      exact IHt.
    + destruct (decide (nameField room = "")) as [Hnf | Hnf].
      * destruct (GetTitle_shape _ _ _ _ _ _ Hrun) as (cache & first & ->).
        intros Hnf'. done.
      * rewrite (GetTitle_of_nameField aliasOrder memberOrder room Hnf IHn) in Hrun.
        injection Hrun as <- _. intros _. by right.
    + unfold GetTitle in Hrun.
      destruct (updateNameCache _ _ _ room) as [r |] eqn:Hu; [| done].
      cbn in Hrun. injection Hrun as <- _.
      destruct (updateNameCache_shape _ _ _ _ _ Hu) as (s & _ & [-> | ->]).
      * exact IHf.
      * by apply (GetMembers_firstCoherent memberOrder room).
  - split; [| split].
    + unfold GetTopic. cbn [fst].
      destruct (lenIsZero (topicCache room)); [| done].
      destruct (GetStateEvent "m.room.topic" "" room) eqn:He; [| done].
      right. unfold topicField. cbn [topicCache set_topicCache].
      change (GetStateEvent "m.room.topic" "" (set_topicCache _ room))
        with (GetStateEvent "m.room.topic" "" room).
      by rewrite He.
    + unfold GetTopic. cbn [fst].
      destruct (lenIsZero (topicCache room)); [| done].
      destruct (GetStateEvent "m.room.topic" "" room); done.
    + unfold GetTopic. cbn [fst].
      destruct (lenIsZero (topicCache room)); [| done].
      destruct (GetStateEvent "m.room.topic" "" room); done.
  - split; [| split].
    + destruct (GetMembers_shape eventToRoomMember order room)
        as (cache & first & ->). exact IHt.
    + destruct (GetMembers_shape eventToRoomMember order room)
        as (cache & first & ->). exact IHn.
    + by apply GetMembers_firstCoherent.
  - change (GetMember eventToRoomMember order userID room).1
      with (GetMembers eventToRoomMember order room).1.
    split; [| split].
    + destruct (GetMembers_shape eventToRoomMember order room)
        as (cache & first & ->). exact IHt.
    + destruct (GetMembers_shape eventToRoomMember order room)
        as (cache & first & ->). exact IHn.
    + by apply GetMembers_firstCoherent.
  - exact IH.
  - unfold LockHistory in Hrun.
    destruct (fetchHistoryLock room) as [[[|]] |] eqn:Hl;
      cbn in Hrun; rewrite ?Hl in Hrun; simplify_eq/=; exact IH.
  - unfold UnlockHistory in Hrun.
    destruct (fetchHistoryLock room) as [[[|]] |]; simplify_eq/=; exact IH.
  - exact IH.
Qed.

End Caches.

(** ** Topic and name, seen by a client *)

(** X7: on a room a client can hold, [GetTopic] always returns the topic of
    the topic event the state table holds now (the empty string when there is
    none): the topic cache is never stale. *)
Theorem GetTopic_current (eventToRoomMember : string → Event → Member)
    (room : Room) :
  reachable eventToRoomMember room →
  (GetTopic room).2 = topicField room.
Proof.
  intros Hreach.
  destruct (reachable_caches eventToRoomMember room Hreach) as (Hc & _).
  unfold GetTopic, topicField. cbn [snd].
  destruct (lenIsZero (topicCache room)) eqn:Hz.
  - apply lenIsZero_true in Hz.
    destruct (GetStateEvent "m.room.topic" "" room); done.
  - apply lenIsZero_false in Hz. by destruct Hc.
Qed.

Lemma GetTopic_current_witness :
  (GetTopic (roomWith me [topicEvent "old"; topicEvent "new"])).2
    = topicField (roomWith me [topicEvent "old"; topicEvent "new"]).
Proof.
  apply (GetTopic_current eventToRoomMember_model).
  apply (reachable_applyEvents eventToRoomMember_model
           [topicEvent "old"; topicEvent "new"]
           (NewRoom "!room:example.org" me)).
  - apply reach_NewRoom.
  - vm_compute. reflexivity.
Defined.

(** X8: whatever the room held and had cached, once a topic event filed
    under the empty state key is applied, [GetTopic] returns the string in
    its [topic] field (the empty string when the field is missing or is not
    a string). *)
Theorem GetTopic_after_UpdateState (event : Event) (room room' : Room) :
  EvType event = "m.room.topic" →
  StateKey event = Some "" →
  UpdateState event room = Returns room' →
  (GetTopic room').2 = assertString (Content event !! "topic").
Proof.
  intros Hty Hk Hrun.
  rewrite (UpdateState_eq event "" room Hk) in Hrun. injection Hrun as <-.
  destruct (invalidate_fields (EvType event) room) as (_ & _ & Hte & _).
  unfold GetTopic, GetStateEvent. cbn [snd topicCache set_State State].
  rewrite (Hte Hty). cbn [lenIsZero String.length Nat.eqb].
  rewrite <- Hty at 1. by rewrite fileEvent_lookup_eq.
Qed.

Lemma GetTopic_after_UpdateState_witness :
  ∃ room',
    UpdateState (topicEvent "new") (GetTopic (roomWith me [topicEvent "old"])).1
      = Returns room' ∧
    (GetTopic room').2 = "new".
Proof.
  destruct (UpdateState_State (topicEvent "new") ""
              (GetTopic (roomWith me [topicEvent "old"])).1 eq_refl)
    as (room' & Hrun & _).
  exists room'. split; [exact Hrun |].
  exact (GetTopic_after_UpdateState (topicEvent "new") _ room'
           eq_refl eq_refl Hrun).
Defined.

(** X9: on a room a client can hold, whenever the state table holds a
    non-empty room name, [GetTitle] returns that name, whatever the aliases
    and the members are and whatever order the loops take; it never
    faults. *)
Theorem GetTitle_name_wins (eventToRoomMember : string → Event → Member)
    (aliasOrder memberOrder : list (string * Event)) (room : Room) :
  reachable eventToRoomMember room →
  nameField room ≠ "" →
  GetTitle eventToRoomMember aliasOrder memberOrder room
    = Returns (set_nameCache (nameField room) room, nameField room).
Proof.
  intros Hreach Hnf.
  destruct (reachable_caches eventToRoomMember room Hreach) as (_ & Hc & _).
  by apply GetTitle_of_nameField.
Qed.

Lemma GetTitle_name_wins_witness :
  ∃ room',
    GetTitle eventToRoomMember_model [] (entriesOf aliceLeftEvents)
      (roomWith me (aliceLeftEvents ++ [nameEvent "Lounge"]))
    = Returns (room', "Lounge").
Proof.
  eexists.
  refine (GetTitle_name_wins eventToRoomMember_model []
            (entriesOf aliceLeftEvents)
            (roomWith me (aliceLeftEvents ++ [nameEvent "Lounge"])) _ _).
  - apply (reachable_applyEvents eventToRoomMember_model
             (aliceLeftEvents ++ [nameEvent "Lounge"])
             (NewRoom "!room:example.org" me)).
    + apply reach_NewRoom.
    + vm_compute. reflexivity.
  - vm_compute. done.
Defined.

(** X10: whatever the room held and had cached, once a room-name event
    filed under the empty state key and carrying a non-empty name is applied,
    [GetTitle] returns that name. *)
Theorem GetTitle_after_name_event
    (eventToRoomMember : string → Event → Member)
    (aliasOrder memberOrder : list (string * Event))
    (event : Event) (room room' : Room) :
  EvType event = "m.room.name" →
  StateKey event = Some "" →
  assertString (Content event !! "name") ≠ "" →
  UpdateState event room = Returns room' →
  GetTitle eventToRoomMember aliasOrder memberOrder room'
    = Returns (set_nameCache (assertString (Content event !! "name")) room',
               assertString (Content event !! "name")).
Proof.
  intros Hty Hk Hname Hrun.
  rewrite (UpdateState_eq event "" room Hk) in Hrun. injection Hrun as <-.
  destruct (invalidate_fields (EvType event) room)
    as (_ & _ & _ & _ & _ & Hne & _).
  set (room' := set_State _ _).
  assert (Hnf : nameField room' = assertString (Content event !! "name")).
  { unfold nameField, GetStateEvent, room'. cbn [State set_State].
    rewrite <- Hty at 1. by rewrite fileEvent_lookup_eq. }
  rewrite <- Hnf. apply GetTitle_of_nameField; [by rewrite Hnf |].
  intros _. left. unfold room'. cbn [nameCache set_State]. by apply Hne.
Qed.

Lemma GetTitle_after_name_event_witness :
  ∃ room' room'',
    UpdateState (nameEvent "Lounge") titledRoom = Returns room' ∧
    GetTitle eventToRoomMember_model [] [] room' = Returns (room'', "Lounge").
Proof.
  destruct (UpdateState_State (nameEvent "Lounge") "" titledRoom eq_refl)
    as (room' & Hrun & _).
  exists room', (set_nameCache "Lounge" room'). split; [exact Hrun |].
  refine (GetTitle_after_name_event eventToRoomMember_model [] []
            (nameEvent "Lounge") titledRoom room' eq_refl eq_refl _ Hrun).
  vm_compute. done.
Defined.

(** ** The roster, seen by a client *)

Lemma firstOther_spec (sessionUserID : string) (order : list (string * Event)) :
  (firstOther sessionUserID order ≠ "" ∧
   firstOther sessionUserID order ≠ sessionUserID ∧
   firstOther sessionUserID order ∈ order.*1) ∨
  (firstOther sessionUserID order = "" ∧
   ∀ u, u ∈ order.*1 → u = sessionUserID ∨ u = "").
Proof.
  unfold firstOther.
  destruct (head (filter _ order.*1)) as [u |] eqn:Hhead; cbn.
  - left. apply head_Some_elem_of in Hhead.
    apply list_elem_of_filter in Hhead as [[Hs Hu] Hin]. done.
  - right. split; [done |]. intros u Hin.
    apply head_None in Hhead.
    destruct (decide (u = sessionUserID)) as [| Hs]; [by left |].
    destruct (decide (u = "")) as [| Hu]; [by right |].
    assert (Hf : u ∈ filter (λ u, u ≠ sessionUserID ∧ u ≠ "") order.*1).
    { by apply list_elem_of_filter. }
    rewrite Hhead in Hf. by apply elem_of_nil in Hf.
Qed.

Lemma range_of_key {V : Type} (m : option (gmap string V))
    (order : list (string * V)) (u : string) :
  range_of m order → u ∈ order.*1 → is_Some (default ∅ m !! u).
Proof.
  intros Hr Hin. apply list_elem_of_fmap in Hin as ([u' v] & -> & Hin).
  rewrite Hr in Hin. apply elem_of_map_to_list in Hin. eauto.
Qed.

Section Roster.

Variable eventToRoomMember : string → Event → Member.

Hypothesis eventToRoomMember_UserID :
  ∀ userID event, UserID (eventToRoomMember userID event) = userID.

(** Whether rebuilt or cached, the map [GetMembers] returns is the roster. *)
Lemma GetMembers_roster (order : list (string * Event)) (room : Room) :
  reachable eventToRoomMember room →
  range_of (GetStateEvents "m.room.member" room) order →
  (GetMembers eventToRoomMember order room).2
    = Some (membersOf eventToRoomMember
              (default ∅ (GetStateEvents "m.room.member" room))).
Proof.
  intros Hreach Hr. unfold GetMembers.
  destruct (mapLen (memberCache room) =? 0)%nat eqn:Hlen; cbn [snd].
  - apply (createMemberCache_rebuilt eventToRoomMember
             eventToRoomMember_UserID order room Hr).
  - destruct (reachable_coherent eventToRoomMember eventToRoomMember_UserID
                room Hreach) as [Hc | Hc]; [| done].
    by rewrite Hc in Hlen.
Qed.

Lemma membersOf_lookup (events : gmap string Event) (userID : string)
    (m : Member) :
  membersOf eventToRoomMember events !! userID = Some m ↔
  ∃ e, events !! userID = Some e ∧ m = eventToRoomMember userID e ∧
       Membership m ≠ "leave".
Proof.
  unfold membersOf. rewrite map_lookup_imap.
  destruct (events !! userID) as [e |]; cbn.
  - case_bool_decide as Hl; split.
    + intros [= <-]. eauto.
    + intros (e' & [= <-] & -> & _). done.
    + done.
    + intros (e' & [= <-] & -> & Hl'). done.
  - split; [done | intros (e & ? & _); done].
Qed.

Lemma roster_has_firstOther (events : option (gmap string Event))
    (order : list (string * Event)) (sessionUserID : string) :
  range_of events order →
  (∀ u e, default ∅ events !! u = Some e →
          Membership (eventToRoomMember u e) ≠ "leave") →
  (2 ≤ size (membersOf eventToRoomMember (default ∅ events)))%nat →
  is_Some (membersOf eventToRoomMember (default ∅ events)
             !! firstOther sessionUserID order).
Proof.
  intros Hr Hstay Hsize.
  assert (Hin : ∀ u, is_Some (default ∅ events !! u) →
            is_Some (membersOf eventToRoomMember (default ∅ events) !! u)).
  { intros u [e He]. exists (eventToRoomMember u e).
    apply membersOf_lookup. exists e. eauto. }
  destruct (firstOther_spec sessionUserID order)
    as [(_ & _ & Hkey) | (Hempty & Hall)].
  - apply Hin. by eapply range_of_key.
  - rewrite Hempty.
    destruct (membersOf eventToRoomMember (default ∅ events) !! "")
      as [m |] eqn:Hnone; [eauto |]. exfalso.
    assert (Hsub : dom (membersOf eventToRoomMember (default ∅ events))
                   ⊆ ({[sessionUserID]} : gset string)).
    { intros u Hu. apply elem_of_dom in Hu as [m Hm].
      pose proof Hm as Hm'. apply membersOf_lookup in Hm' as (e & He & _).
      assert (Hk : u ∈ order.*1).
      { rewrite Hr. apply list_elem_of_fmap. exists (u, e).
        split; [done |]. by apply elem_of_map_to_list. }
      destruct (Hall u Hk) as [-> | ->]; [set_solver | congruence]. }
    apply subseteq_size in Hsub. rewrite size_dom, size_singleton in Hsub.
    lia.
Qed.

End Roster.

Lemma GetStateEvent_in_table (eventType stateKey : string) (room : Room)
    (events : gmap string Event) (e : Event) :
  State room !! eventType = Some events →
  GetStateEvent eventType stateKey room = Some e →
  events !! stateKey = Some e.
Proof. unfold GetStateEvent. intros ->. done. Qed.

Lemma mapGet_default {V : Type} (m : option (gmap string V)) (k : string) :
  mapGet m k = default ∅ m !! k.
Proof. destruct m; [done |]. cbn. by rewrite lookup_empty. Qed.

(** X11: on a room a client can hold, the map [GetMembers] returns does not
    depend on the order in which the membership events are visited, nor on
    whether the cache was rebuilt for the call; every entry of it is filed
    under the member's own user ID and none has the membership "leave". *)
Theorem GetMembers_order_independent
    (eventToRoomMember : string → Event → Member)
    (order1 order2 : list (string * Event)) (room : Room) :
  (∀ u e, UserID (eventToRoomMember u e) = u) →
  reachable eventToRoomMember room →
  range_of (GetStateEvents "m.room.member" room) order1 →
  range_of (GetStateEvents "m.room.member" room) order2 →
  (GetMembers eventToRoomMember order1 room).2
    = (GetMembers eventToRoomMember order2 room).2 ∧
  ∀ u m, mapGet (GetMembers eventToRoomMember order1 room).2 u = Some m →
         UserID m = u ∧ Membership m ≠ "leave".
Proof.
  intros Hid Hreach Hr1 Hr2.
  rewrite (GetMembers_roster eventToRoomMember Hid order1 room Hreach Hr1).
  rewrite (GetMembers_roster eventToRoomMember Hid order2 room Hreach Hr2).
  split; [done |]. intros u m Hm. cbn in Hm.
  apply membersOf_lookup in Hm as (e & _ & -> & Hl). by rewrite Hid.
Qed.

Lemma GetMembers_order_independent_witness :
  (GetMembers eventToRoomMember_model (entriesOf aliceLeftEvents)
     (roomWith me aliceLeftEvents)).2
  = (GetMembers eventToRoomMember_model (rev (entriesOf aliceLeftEvents))
       (roomWith me aliceLeftEvents)).2.
Proof.
  refine (proj1 (GetMembers_order_independent eventToRoomMember_model
                   (entriesOf aliceLeftEvents)
                   (rev (entriesOf aliceLeftEvents))
                   (roomWith me aliceLeftEvents) _ _ _ _)).
  - reflexivity.
  - apply (reachable_applyEvents eventToRoomMember_model aliceLeftEvents
             (NewRoom "!room:example.org" me)).
    + apply reach_NewRoom.
    + vm_compute. reflexivity.
  - solve_range_of.
  - solve_range_of.
Defined.

(** X12: on a room a client can hold, [GetMember] returns a member exactly
    when the state table holds a membership event for that user whose
    membership is not "leave", and the member is the one converted from that
    event; [GetSessionOwner] is that lookup for the session user. *)
Theorem GetMember_current (eventToRoomMember : string → Event → Member)
    (order : list (string * Event)) (userID : string) (m : Member)
    (room : Room) :
  (∀ u e, UserID (eventToRoomMember u e) = u) →
  reachable eventToRoomMember room →
  range_of (GetStateEvents "m.room.member" room) order →
  ((GetMember eventToRoomMember order userID room).2 = Some m ↔
   ∃ e, GetStateEvent "m.room.member" userID room = Some e ∧
        m = eventToRoomMember userID e ∧ Membership m ≠ "leave") ∧
  ((GetSessionOwner eventToRoomMember order room).2 = Some m ↔
   ∃ e, GetStateEvent "m.room.member" (SessionUserID room) room = Some e ∧
        m = eventToRoomMember (SessionUserID room) e ∧
        Membership m ≠ "leave").
Proof.
  intros Hid Hreach Hr.
  assert (Hget : ∀ u,
    (GetMember eventToRoomMember order u room).2
      = membersOf eventToRoomMember
          (default ∅ (GetStateEvents "m.room.member" room)) !! u).
  { intros u.
    change ((GetMember eventToRoomMember order u room).2) with
      (mapGet (GetMembers eventToRoomMember order room).2 u).
    by rewrite (GetMembers_roster eventToRoomMember Hid order room Hreach Hr). }
  unfold GetSessionOwner. rewrite !Hget.
  unfold GetStateEvent. rewrite !mapGet_default.
  split; apply membersOf_lookup.
Qed.

Lemma GetMember_current_witness :
  (GetMember eventToRoomMember_model (entriesOf aliceLeftEvents) bob
     (roomWith me aliceLeftEvents)).2
  = Some (eventToRoomMember_model bob (memberEvent bob "join" "Bob")).
Proof.
  refine (proj2 (proj1 (GetMember_current eventToRoomMember_model
                   (entriesOf aliceLeftEvents) bob _
                   (roomWith me aliceLeftEvents) _ _ _)) _).
  - reflexivity.
  - apply (reachable_applyEvents eventToRoomMember_model aliceLeftEvents
             (NewRoom "!room:example.org" me)).
    + apply reach_NewRoom.
    + vm_compute. reflexivity.
  - solve_range_of.
  - exists (memberEvent bob "join" "Bob").
    split; [vm_compute; reflexivity |]. split; [reflexivity |].
    vm_compute. done.
Defined.

(** X13: whatever the room had cached, once a membership event for a user is
    applied, [GetMember] for that user returns the member converted from
    that event, or nil when its membership is "leave": a join shows up and a
    leave removes the member at the next lookup. *)
Theorem GetMember_after_member_event
    (eventToRoomMember : string → Event → Member)
    (order : list (string * Event)) (event : Event) (userID : string)
    (room room' : Room) :
  (∀ u e, UserID (eventToRoomMember u e) = u) →
  EvType event = "m.room.member" →
  StateKey event = Some userID →
  UpdateState event room = Returns room' →
  range_of (GetStateEvents "m.room.member" room') order →
  (GetMember eventToRoomMember order userID room').2 =
    if bool_decide (Membership (eventToRoomMember userID event) ≠ "leave")
    then Some (eventToRoomMember userID event) else None.
Proof.
  intros Hid Hty Hk Hrun Hr.
  assert (Hcache : memberCache room' = None).
  { destruct (UpdateState_caches _ _ _ Hrun) as (-> & _).
    by destruct (invalidate_fields (EvType event) room)
      as (_ & _ & _ & _ & Hme & _); destruct (Hme Hty). }
  assert (Hev : mapGet (GetStateEvents "m.room.member" room') userID
                = Some event).
  { rewrite (UpdateState_eq event userID room Hk) in Hrun.
    injection Hrun as <-. unfold GetStateEvents. cbn [State set_State].
    rewrite <- Hty. apply fileEvent_lookup_eq. }
  unfold GetMember. rewrite Hcache. cbn [mapLen Nat.eqb snd].
  rewrite (proj1 (createMemberCache_rebuilt eventToRoomMember Hid order
                    room' Hr)).
  cbn [mapGet]. unfold membersOf. rewrite map_lookup_imap.
  rewrite mapGet_default in Hev. rewrite Hev. done.
Qed.

Lemma GetMember_after_member_event_witness :
  ∃ room',
    UpdateState (memberEvent bob "leave" "Bob") (roomWith me pairEvents)
      = Returns room' ∧
    (GetMember eventToRoomMember_model
       (entriesOf [memberEvent bob "leave" "Bob"; memberEvent me "join" "Me"])
       bob room').2
      = None.
Proof.
  destruct (UpdateState_State (memberEvent bob "leave" "Bob") bob
              (roomWith me pairEvents) eq_refl) as (room' & Hrun & _).
  exists room'. split; [exact Hrun |].
  refine (GetMember_after_member_event eventToRoomMember_model
            (entriesOf [memberEvent bob "leave" "Bob";
                        memberEvent me "join" "Me"])
            (memberEvent bob "leave" "Bob") bob
            (roomWith me pairEvents) room' _ eq_refl eq_refl Hrun _).
  - reflexivity.
  - vm_compute in Hrun. injection Hrun as <-. solve_range_of.
Defined.

(** X14: on a room a client can hold, a non-empty [firstMemberCache] never
    names the session user and always names a user who has a membership
    event in the state table (who may have left). *)
Theorem firstMemberCache_other (eventToRoomMember : string → Event → Member)
    (room : Room) :
  reachable eventToRoomMember room →
  firstMemberCache room ≠ "" →
  firstMemberCache room ≠ SessionUserID room ∧
  is_Some (GetStateEvent "m.room.member" (firstMemberCache room) room).
Proof.
  intros Hreach Hne.
  destruct (reachable_caches eventToRoomMember room Hreach)
    as (_ & _ & [[_ Hempty] | (order & Hr & Hfirst)]); [done |].
  rewrite Hfirst in Hne |- *.
  destruct (firstOther_spec (SessionUserID room) order)
    as [(_ & Hs & Hin) | (Hempty & _)]; [| done].
  split; [done |]. unfold GetStateEvent. rewrite mapGet_default.
  by eapply range_of_key.
Qed.

Lemma firstMemberCache_other_witness :
  firstMemberCache
    (GetMembers eventToRoomMember_model (entriesOf aliceLeftEvents)
       (roomWith me aliceLeftEvents)).1 ≠ me.
Proof.
  refine (proj1 (firstMemberCache_other eventToRoomMember_model
    (GetMembers eventToRoomMember_model (entriesOf aliceLeftEvents)
       (roomWith me aliceLeftEvents)).1 _ _)).
  - apply reach_GetMembers; [| solve_range_of].
    apply (reachable_applyEvents eventToRoomMember_model aliceLeftEvents
             (NewRoom "!room:example.org" me)).
    + apply reach_NewRoom.
    + vm_compute. reflexivity.
  - vm_compute. done.
Defined.

(** X15: on a room a client can hold in which no membership event has the
    membership "leave", [GetTitle] returns a title: whatever the caches hold
    and whatever order the loops take, the run does not fault. *)
Theorem GetTitle_returns_when_nobody_left
    (eventToRoomMember : string → Event → Member)
    (aliasOrder memberOrder : list (string * Event)) (room : Room) :
  (∀ u e, UserID (eventToRoomMember u e) = u) →
  reachable eventToRoomMember room →
  range_of (GetStateEvents "m.room.member" room) memberOrder →
  (∀ u e, GetStateEvent "m.room.member" u room = Some e →
          Membership (eventToRoomMember u e) ≠ "leave") →
  ∃ room' title,
    GetTitle eventToRoomMember aliasOrder memberOrder room
      = Returns (room', title).
Proof.
  intros Hid Hreach Hr Hstay. unfold GetTitle.
  destruct (decide (nameCache room = "")) as [Hn | Hn];
    [| rewrite (updateNameCache_set _ _ _ _ Hn); cbn; eauto].
  rewrite (updateNameCache_unset _ _ _ _ Hn).
  case_decide; [| cbn; eauto].
  rewrite updateNameFromMembers_eq. cbn zeta.
  case_decide as Hle; [cbn; eauto |].
  pose proof (GetMembers_roster eventToRoomMember Hid memberOrder room
                Hreach Hr) as Hroster.
  pose proof (reach_GetMembers eventToRoomMember memberOrder room Hreach Hr)
    as Hreach1.
  destruct (GetMembers_State eventToRoomMember memberOrder room)
    as (HS & Hsess & _).
  destruct (reachable_caches eventToRoomMember _ Hreach1)
    as (_ & _ & [[Hnone _] | (order & Hr1 & Hfirst)]).
  { rewrite <- GetMembers_snd, Hroster in Hnone. done. }
  unfold GetStateEvents in Hr1. rewrite HS in Hr1.
  fold (GetStateEvents "m.room.member" room) in Hr1.
  rewrite Hroster in Hle |- *. cbn [mapLen mapGet] in Hle |- *.
  destruct (roster_has_firstOther eventToRoomMember Hid
              (GetStateEvents "m.room.member" room) order
              (SessionUserID (GetMembers eventToRoomMember memberOrder room).1)
              Hr1) as [m Hm].
  - intros u e He. apply Hstay. unfold GetStateEvent.
    by rewrite mapGet_default.
  - lia.
  - rewrite Hfirst, Hm. cbn. eauto.
Qed.

Lemma GetTitle_returns_when_nobody_left_witness :
  ∃ room' title,
    GetTitle eventToRoomMember_model [] (entriesOf pairEvents)
      (roomWith me pairEvents) = Returns (room', title).
Proof.
  refine (GetTitle_returns_when_nobody_left eventToRoomMember_model []
            (entriesOf pairEvents) (roomWith me pairEvents) _ _ _ _).
  - reflexivity.
  - apply (reachable_applyEvents eventToRoomMember_model pairEvents
             (NewRoom "!room:example.org" me)).
    + apply reach_NewRoom.
    + vm_compute. reflexivity.
  - solve_range_of.
  - intros u e He.
    assert (Hev : State (roomWith me pairEvents) !! "m.room.member"
                  = Some (<[me := memberEvent me "join" "Me"]>
                            (<[bob := memberEvent bob "join" "Bob"]> ∅))).
    { vm_compute. reflexivity. }
    pose proof (GetStateEvent_in_table _ _ _ _ _ Hev He) as He'.
    apply lookup_insert_Some in He' as [[<- <-] | [_ He']];
      [vm_compute; done |].
    apply lookup_insert_Some in He' as [[<- <-] | [_ He']];
      [vm_compute; done |].
    by rewrite lookup_empty in He'.
Defined.

(** ** Witnesses of earlier statements *)

Lemma GetTitle_precedence_witness :
  ∃ room',
    GetTitle eventToRoomMember_model [] (entriesOf pairEvents)
      (roomWith me pairEvents) = Returns (room', "Bob").
Proof.
  assert (Hn : nameCache (roomWith me pairEvents) = "")
    by (vm_compute; reflexivity).
  pose proof (GetTitle_precedence eventToRoomMember_model []
                (entriesOf pairEvents) (roomWith me pairEvents) Hn) as P.
  cbv zeta in P. destruct P as (_ & _ & _ & D).
  destruct D as (_ & D2 & _);
    [vm_compute; reflexivity | vm_compute; reflexivity | reflexivity |].
  eexists.
  refine (D2 (eventToRoomMember_model bob (memberEvent bob "join" "Bob")) _ _).
  - vm_compute. lia.
  - vm_compute. reflexivity.
Defined.

Lemma UpdateState_invalidates_witness :
  ∃ room',
    UpdateState (memberEvent bob "join" "Bob") titledRoom = Returns room' ∧
    nameCache room' = "" ∧ memberCache room' = None.
Proof.
  destruct (UpdateState_State (memberEvent bob "join" "Bob") bob titledRoom
              eq_refl) as (room' & Hrun & _).
  exists room'. split; [exact Hrun |].
  destruct (proj1 (UpdateState_invalidates _ _ _ Hrun) eq_refl)
    as (Hm & _ & Hn).
  done.
Defined.

Lemma LockHistory_eager_excludes_witness :
  ∃ w,
    HistoryLock.run [0; 1; 0; 0; 0; 0; 1]
      (HistoryLock.start (Some 0) [false] 2) = Some w ∧
    (HistoryLock.holders w ≤ 1)%nat.
Proof.
  eexists. split; [reflexivity |].
  apply (LockHistory_eager_excludes 2 [0; 1; 0; 0; 0; 0; 1]).
  reflexivity.
Defined.

(** ** One caller and the guard *)

(** X18: with a single caller, [LockHistory] returns exactly when the guard
    is not held, creating it when it is nil; the room it leaves differs only
    in the guard, which is then held; a second [LockHistory] on that room
    never returns, and [UnlockHistory] on it returns and leaves the guard
    free. *)
Theorem LockHistory_then_UnlockHistory (room : Room) :
  (LockHistory room = None ↔ fetchHistoryLock room = Some (mkMutex true)) ∧
  ∀ room', LockHistory room = Some room' →
    room' = set_fetchHistoryLock (Some (mkMutex true)) room ∧
    LockHistory room' = None ∧
    UnlockHistory room'
      = Returns (set_fetchHistoryLock (Some (mkMutex false)) room).
Proof.
  unfold LockHistory, UnlockHistory.
  destruct (fetchHistoryLock room) as [[[|]] |] eqn:Hl; cbn; rewrite ?Hl; cbn.
  - split; [done |]. intros room' [=].
  - split; [split; intros [=] |]. intros room' [= <-]. done.
  - split; [split; intros [=] |]. intros room' [= <-]. done.
Qed.

Lemma LockHistory_then_UnlockHistory_witness :
  ∃ room',
    LockHistory storedRoom = Some room' ∧
    UnlockHistory room'
      = Returns (set_fetchHistoryLock (Some (mkMutex false)) storedRoom).
Proof.
  exists (set_fetchHistoryLock (Some (mkMutex true)) storedRoom).
  split; [reflexivity |].
  apply (proj2 (LockHistory_then_UnlockHistory storedRoom)). reflexivity.
Defined.

(** ** The history guard, continued *)

(** Under the invariant of an eagerly created guard no step crashes. *)
Lemma eager_step_no_crash (i : nat) (w w' : HistoryLock.world) :
  eagerInvariant w →
  Forall (λ p, p ≠ HistoryLock.Crashed) (HistoryLock.callers w) →
  HistoryLock.step i w = Some w' →
  Forall (λ p, p ≠ HistoryLock.Crashed) (HistoryLock.callers w').
Proof.
  intros (Hg & Hall & b & Hm & Hh) Hok Hstep.
  unfold HistoryLock.step in Hstep.
  destruct (HistoryLock.callers w !! i) as [p |] eqn:Hp; [| done].
  cbn in Hstep.
  pose proof (Forall_lookup_1 _ _ _ _ Hall Hp) as Hnc. cbn in Hnc.
  assert (Hcount := holders_insert (HistoryLock.callers w) i p
                      HistoryLock.Finished Hp).
  fold (HistoryLock.holders w) in Hcount.
  destruct p; cbn in Hstep; rewrite ?Hg, ?Hm in Hstep; cbn in Hstep;
    try done.
  - injection Hstep as <-. cbn. by apply Forall_insert.
  - destruct b; [done |]. injection Hstep as <-. cbn. by apply Forall_insert.
  - injection Hstep as <-. cbn. by apply Forall_insert.
  - injection Hstep as <-. cbn. by apply Forall_insert.
  - cbn in Hcount. destruct b; [| lia].
    injection Hstep as <-. cbn. by apply Forall_insert.
Qed.

(** X20: when the guard exists before the first call, no caller ever
    crashes, and the only caller that cannot take its next step is one
    waiting in [Lock] while another caller is inside: a caller about to lock
    moves as soon as nobody holds the guard, and a holder can always go on
    to release it. *)
Theorem LockHistory_eager_progress (n : nat) (schedule : list nat)
    (w : HistoryLock.world) :
  HistoryLock.run schedule (HistoryLock.start (Some 0) [false] n) = Some w →
  Forall (λ p, p ≠ HistoryLock.Crashed) (HistoryLock.callers w) ∧
  ∀ i p, HistoryLock.callers w !! i = Some p →
    p ≠ HistoryLock.Finished →
    (p = HistoryLock.LockAcquire → HistoryLock.holders w = 0) →
    is_Some (HistoryLock.step i w).
Proof.
  assert (Hstart : eagerInvariant (HistoryLock.start (Some 0) [false] n) ∧
    Forall (λ p, p ≠ HistoryLock.Crashed)
      (HistoryLock.callers (HistoryLock.start (Some 0) [false] n))).
  { split; [split; [done |]; split |].
    - apply Forall_replicate. done.
    - exists false. split; [done |]. unfold HistoryLock.holders. cbn.
      induction n as [| n IH]; [done |]. cbn. exact IH.
    - apply Forall_replicate. done. }
  revert Hstart. generalize (HistoryLock.start (Some 0) [false] n).
  induction schedule as [| i rest IH]; intros w0 [Hinv Hok] Hrun.
  - injection Hrun as <-. split; [done |].
    intros i p Hp Hfin Hacq.
    destruct Hinv as (Hg & Hall & b & Hm & Hh).
    pose proof (Forall_lookup_1 _ _ _ _ Hall Hp) as Hnc.
    pose proof (Forall_lookup_1 _ _ _ _ Hok Hp) as Hncr.
    cbn in Hnc, Hncr.
    unfold HistoryLock.step. rewrite Hp. cbn.
    destruct p; cbn; rewrite ?Hg, ?Hm; cbn; try done; eauto.
    + rewrite (Hacq eq_refl) in Hh. destruct b; [done | eauto].
    + destruct b; eauto.
  - cbn in Hrun. destruct (HistoryLock.step i w0) as [w1 |] eqn:Hstep;
      [| done].
    cbn in Hrun. eapply IH; [| exact Hrun]. split.
    + by eapply eagerInvariant_step.
    + by eapply eager_step_no_crash.
Qed.

Lemma LockHistory_eager_progress_witness :
  is_Some (HistoryLock.step 1
    {| HistoryLock.shared :=
         {| HistoryLock.guard := Some 0; HistoryLock.mutexes := [false] |};
       HistoryLock.callers :=
         [HistoryLock.Finished; HistoryLock.LockAcquire] |}).
Proof.
  refine (proj2 (LockHistory_eager_progress 2 [0; 1; 0; 0; 0; 0] _ _)
            1 HistoryLock.LockAcquire _ _ _).
  - reflexivity.
  - reflexivity.
  - done.
  - intros _. reflexivity.
Defined.

(** X21: a room made by [NewRoom] and changed only through the methods
    always has its history guard: the field is never nil, so [LockHistory]
    never has to create the mutex and [UnlockHistory] never takes its nil
    branch. *)
Theorem reachable_guard_created (eventToRoomMember : string → Event → Member)
    (room : Room) :
  reachable eventToRoomMember room →
  is_Some (fetchHistoryLock room).
Proof.
  induction 1 as
    [ roomID owner
    | event room room' _ IH Hrun
    | aliasOrder memberOrder room room' title _ IH Ha Hm Hrun
    | room _ IH
    | order room _ IH Hr
    | order userID room _ IH Hr
    | room _ IH
    | room room' _ IH Hrun
    | room room' _ IH Hrun
    | prevBatch unread highlighted hasNew room _ IH ].
  - by eexists.
  - destruct (UpdateState_Returns _ _ _ Hrun) as [k Hk].
    rewrite (UpdateState_eq event k room Hk) in Hrun. injection Hrun as <-.
    unfold invalidate. repeat case_decide; exact IH.
  - destruct (GetTitle_shape _ _ _ _ _ _ Hrun) as (cache & first & ->).
    exact IH.
  - unfold GetTopic. cbn [fst].
    destruct (lenIsZero (topicCache room)); [| done].
    destruct (GetStateEvent "m.room.topic" "" room); done.
  - destruct (GetMembers_shape eventToRoomMember order room)
      as (cache & first & ->). exact IH.
  - change (GetMember eventToRoomMember order userID room).1
      with (GetMembers eventToRoomMember order room).1.
    destruct (GetMembers_shape eventToRoomMember order room)
      as (cache & first & ->). exact IH.
  - exact IH.
  - unfold LockHistory in Hrun. destruct IH as [[b] Hm].
    rewrite Hm in Hrun. cbn in Hrun. rewrite ?Hm in Hrun.
    destruct b; simplify_eq/=. by eexists.
  - unfold UnlockHistory in Hrun. destruct IH as [[b] Hm].
    rewrite Hm in Hrun. destruct b; simplify_eq/=. by eexists.
  - exact IH.
Qed.

Lemma reachable_guard_created_witness :
  is_Some (fetchHistoryLock (roomWith me pairEvents)).
Proof.
  apply (reachable_guard_created eventToRoomMember_model).
  apply (reachable_applyEvents eventToRoomMember_model pairEvents
           (NewRoom "!room:example.org" me)).
  - apply reach_NewRoom.
  - vm_compute. reflexivity.
Defined.
